(** * pkg/geoip: IP address to country code resolution

    A shallow embedding of [pkg/geoip/geoip.go].  Go strings are byte
    strings, so they are modelled by [string] (a list of 8-bit [ascii]
    values) and [len] is the byte length.  The package-level variables
    [dbOnce], [dbReader] and [dbInitErr] form an explicit [State] that
    every function threads; the file system, the embedded database and
    the network are an oracle ([World]) that each call consults, and
    every consultation is logged in a ghost trace. *)

From Stdlib Require Import String Ascii List Bool Arith ZArith Lia.
Import ListNotations.
Open Scope string_scope.

(** ** Go values *)

(** [error]: values built by [errors.New] in this package, and errors
    produced by the libraries it calls (net/http, io, os, maxminddb). *)
Inductive error : Type :=
| errors_New (msg : string)
| lib_error (msg : string).

(** A Go [(string, error)] result pair; [None] is the [nil] error. *)
Definition result : Type := (string * option error)%type.

(** [net.IP] is a byte slice; [None] is the [nil] slice. *)
Definition IP : Type := option (list Byte.byte).

(** ** The [strings] package *)

(** The parts of the Go standard library that work on non-ASCII text
    (Unicode case mapping and Unicode white space) and the textual form
    of an address are parameters of the development. *)
Class GoLib : Type := {
  (** [strings.Map(unicode.ToLower, s)] *)
  unicode_ToLower : string -> string;
  (** [strings.TrimFunc(s, unicode.IsSpace)] *)
  unicode_TrimFunc : string -> string;
  (** [strings.TrimRightFunc(s, unicode.IsSpace)] *)
  unicode_TrimRightFunc : string -> string;
  (** [net.IP.String] *)
  IP_String : list Byte.byte -> string
}.

(** [c >= utf8.RuneSelf] is false *)
Definition isASCIIbyte (c : ascii) : bool := Nat.ltb (nat_of_ascii c) 128.

Fixpoint isASCII (s : string) : bool :=
  match s with
  | EmptyString => true
  | String c s' => isASCIIbyte c && isASCII s'
  end.

(** ['A' <= c && c <= 'Z'] *)
Definition isUpper (c : ascii) : bool :=
  Nat.leb 65 (nat_of_ascii c) && Nat.leb (nat_of_ascii c) 90.

(** [c += 'a' - 'A'] on upper-case bytes *)
Definition lowerByte (c : ascii) : ascii :=
  if isUpper c then ascii_of_nat (nat_of_ascii c + 32) else c.

Fixpoint mapBytes (f : ascii -> ascii) (s : string) : string :=
  match s with
  | EmptyString => EmptyString
  | String c s' => String (f c) (mapBytes f s')
  end.

(** The table [asciiSpace]: tab, line feed, vertical tab, form feed,
    carriage return and space. *)
Definition asciiSpace (c : ascii) : bool :=
  let n := nat_of_ascii c in
  Nat.eqb n 9 || Nat.eqb n 10 || Nat.eqb n 11 || Nat.eqb n 12
  || Nat.eqb n 13 || Nat.eqb n 32.

(** [s == empty], that is [len(s) == 0] *)
Definition isEmpty (s : string) : bool :=
  match s with EmptyString => true | _ => false end.

Fixpoint rev_string (acc s : string) : string :=
  match s with
  | EmptyString => acc
  | String c s' => rev_string (String c acc) s'
  end.

Section Strings.
Context {L : GoLib}.

(** [strings.ToLower]: the ASCII path rewrites upper-case bytes in
    place, anything else goes through the Unicode mapping. *)
Definition ToLower (s : string) : string :=
  if isASCII s then mapBytes lowerByte s else unicode_ToLower s.

(** The second loop of [strings.TrimSpace], run on the reversed
    remainder [r] of the string: drop trailing ASCII space; a
    non-ASCII byte hands what is left to [TrimRightFunc]. *)
Fixpoint trimRight (r : string) : string :=
  match r with
  | EmptyString => EmptyString
  | String c r' =>
      if negb (isASCIIbyte c)
      then unicode_TrimRightFunc (rev_string EmptyString r)
      else if asciiSpace c then trimRight r'
      else rev_string EmptyString r
  end.

(** [strings.TrimSpace]: the first loop drops leading ASCII space; a
    non-ASCII byte hands the rest to [TrimFunc]. *)
Fixpoint TrimSpace (s : string) : string :=
  match s with
  | EmptyString => EmptyString
  | String c s' =>
      if negb (isASCIIbyte c) then unicode_TrimFunc s
      else if asciiSpace c then TrimSpace s'
      else trimRight (rev_string EmptyString s)
  end.
End Strings.

(** ** The network *)

(** What [io.ReadAll(resp.Body)] yields. *)
Inductive read_result : Type :=
| ReadFailed (e : string)
| ReadAll (body : string).

(** What [httpClient.Get(url)] yields: a transport failure (including
    the two second timeout), or a response with a status code and a
    body still to be read. *)
Inductive http_reply : Type :=
| GetFailed (e : string)
| Response (StatusCode : Z) (Body : read_result).

Definition http_StatusOK : Z := 200.

(** ** The database library *)

Record IPInfo : Type := mkIPInfo {
  CountryCode : string;
  Country : string;
  CountryName : string;
  ContinentCode : string;
  Continent : string;
  ContinentName : string
}.

(** The zero value of [var record IPInfo]. *)
Definition zeroIPInfo : IPInfo :=
  mkIPInfo EmptyString EmptyString EmptyString
           EmptyString EmptyString EmptyString.

(** What the search tree of a database holds for an address:
    the search or the decoding fails, the tree has no data for the
    address, or it has a record. *)
Inductive db_entry : Type :=
| EntryError (e : string)
| EntryAbsent
| EntryFound (r : IPInfo).

(** [*maxminddb.Reader]: an opened database. *)
Record Reader : Type := mkReader { entries : IP -> db_entry }.

(** The method [Reader.Lookup(ip, &record)] of maxminddb-golang v1:
    [pointer, _, _, err := r.lookupPointer(ip);
     if pointer == 0 || err != nil { return err };
     return r.retrieveData(pointer, result)].
    An address without data gives pointer 0 and a nil error, and leaves
    [record] as it was. *)
Definition Reader_Lookup (db : Reader) (ip : IP) (record : IPInfo)
  : IPInfo * option error :=
  match entries db ip with
  | EntryError e => (record, Some (lib_error e))
  | EntryAbsent => (record, None)
  | EntryFound r => (r, None)
  end.

(** [os.Stat] and [info.IsDir()]. *)
Inductive stat_result : Type :=
| StatFailed (e : string)
| StatInfo (IsDir : bool).

(** [maxminddb.Open] and [maxminddb.FromBytes]. *)
Inductive open_result : Type :=
| OpenFailed (e : string)
| Opened (r : Reader).

(** ** The environment and the package state *)

Record World : Type := mkWorld {
  http_Get : string -> http_reply;
  os_Stat : string -> stat_result;
  maxminddb_Open : string -> open_result;
  (** [maxminddb.FromBytes(embeddedDB)] *)
  maxminddb_FromBytes_embeddedDB : open_result
}.

Inductive event : Type :=
| EvHttpGet (url : string)
| EvStat (path : string)
| EvOpen (path : string)
| EvFromBytes.

Record State : Type := mkState {
  dbOnce : bool;                (* [sync.Once]: has [Do] already run *)
  dbReader : option Reader;     (* [nil] is [None] *)
  dbInitErr : option error;
  trace : list event            (* ghost: newest event first *)
}.

Definition initial : State := mkState false None None [].

Definition log (ev : event) (s : State) : State :=
  mkState (dbOnce s) (dbReader s) (dbInitErr s) (ev :: trace s).

Definition externalDBPath : string := "/dashboard/data/ipinfo_lite.mmdb".

(** What a call of [Lookup] does: it returns a Go [(string, error)]
    pair, or it panics (a method call through a nil [Reader]). *)
Inductive outcome : Type :=
| Return (code : string) (err : option error)
| Panic.

Definition isNil {A : Type} (e : option A) : bool :=
  match e with None => true | Some _ => false end.

(** ** The package *)

Section Geoip.
Context {L : GoLib}.

(** [func initDB()] *)
Definition initDB (w : World) (s : State) : State :=
  let embedded (s : State) : State :=
    let s := log EvFromBytes s in
    match maxminddb_FromBytes_embeddedDB w with
    | OpenFailed e =>
        mkState (dbOnce s) (dbReader s) (Some (lib_error e)) (trace s)
    | Opened reader =>
        mkState (dbOnce s) (Some reader) (dbInitErr s) (trace s)
    end in
  let s := log (EvStat externalDBPath) s in
  match os_Stat w externalDBPath with
  | StatInfo false =>
      let s := log (EvOpen externalDBPath) s in
      match maxminddb_Open w externalDBPath with
      | Opened reader =>
          mkState (dbOnce s) (Some reader) (dbInitErr s) (trace s)
      | OpenFailed _ => embedded s
      end
  | _ => embedded s
  end.

(** The method [sync.Once.Do]: runs [f] on the first call only, and marks the
    [Once] as done when [f] has returned. *)
Definition Once_Do (f : State -> State) (s : State) : State :=
  if dbOnce s then s
  else let s := f s in
       mkState true (dbReader s) (dbInitErr s) (trace s).

(** [func getDB()], returning a [Reader] pointer and an [error] *)
Definition getDB (w : World) (s : State)
  : (option Reader * option error) * State :=
  let s := Once_Do (initDB w) s in
  ((dbReader s, dbInitErr s), s).

(** [func fetchIPInfoCountry(url string) (string, error)] *)
Definition fetchIPInfoCountry (w : World) (url : string) (s : State)
  : result * State :=
  let s := log (EvHttpGet url) s in
  match http_Get w url with
  | GetFailed e => ((EmptyString, Some (lib_error e)), s)
  | Response StatusCode Body =>
      if negb (Z.eqb StatusCode http_StatusOK)
      then ((EmptyString, Some (errors_New "ipinfo status not OK")), s)
      else
        match Body with
        | ReadFailed e => ((EmptyString, Some (lib_error e)), s)
        | ReadAll body =>
            let code := TrimSpace body in
            if negb (Nat.eqb (String.length code) 2)
            then ((EmptyString,
                   Some (errors_New "invalid country code from ipinfo")), s)
            else ((ToLower code, None), s)
        end
  end.

(** [func lookupFromIPInfo(ip net.IP) (string, error)] *)
Definition lookupFromIPInfo (w : World) (ip : IP) (s : State)
  : result * State :=
  match ip with
  | None => ((EmptyString, Some (errors_New "nil ip")), s)
  | Some b =>
      let url := "https://ipinfo.io/" ++ IP_String b ++ "/country" in
      fetchIPInfoCountry w url s
  end.

(** The tail of [Lookup] (the country-code priority and the continent
    fallback), applied to the decoded [record]. *)
Definition codeOf (record : IPInfo) : result :=
  if negb (isEmpty (CountryCode record))
  then (ToLower (CountryCode record), None)
  else if negb (isEmpty (Country record))
          && Nat.eqb (String.length (Country record)) 2
  then (ToLower (Country record), None)
  else if negb (isEmpty (ContinentCode record))
  then (ToLower (ContinentCode record), None)
  else if negb (isEmpty (Continent record))
          && Nat.eqb (String.length (Continent record)) 2
  then (ToLower (Continent record), None)
  else (EmptyString, Some (errors_New "IP not found")).

(** The end of [Lookup], from the test of [getDB]'s error on: the
    record is read through the handle and a code is chosen. *)
Definition lookupRecord (db : option Reader) (err : option error)
           (ip : IP) : outcome :=
  match err with
  | Some e => Return EmptyString (Some e)
  | None =>
      match db with
      | None => Panic
      | Some db =>
          let '(record, err) := Reader_Lookup db ip zeroIPInfo in
          match err with
          | Some e => Return EmptyString (Some e)
          | None =>
              let '(code, err) := codeOf record in
              Return code err
          end
      end
  end.

(** The local tier of [Lookup]: everything after the remote attempt. *)
Definition lookupLocal (w : World) (ip : IP) (s : State)
  : outcome * State :=
  let '((db, err), s) := getDB w s in
  (lookupRecord db err ip, s).

(** [func Lookup(ip net.IP) (string, error)] *)
Definition Lookup (w : World) (ip : IP) (s : State) : outcome * State :=
  let '((code, err), s) := lookupFromIPInfo w ip s in
  if isNil err && negb (isEmpty code)
  then (Return code None, s)
  else lookupLocal w ip s.

End Geoip.

(** ** Derived notions used by the statements *)

Section Notions.
Context {L : GoLib}.

(** The remote tier succeeded in the sense of [Lookup]'s first test:
    [err == nil && code != empty]. *)
Definition remoteOK (w : World) (ip : IP) (s : State) : bool :=
  let '(code, err) := fst (lookupFromIPInfo w ip s) in
  isNil err && negb (isEmpty code).

(** The reader and the error that [getDB] hands out. *)
Definition handle (w : World) (s : State) : option Reader * option error :=
  fst (getDB w s).

(** The two states agree on the package variables (the ghost trace
    may differ). *)
Definition sameVars (s s' : State) : Prop :=
  dbOnce s = dbOnce s' /\ dbReader s = dbReader s'
  /\ dbInitErr s = dbInitErr s'.

(** Each way [getDB] can leave the package variables is sound: once
    [dbOnce] is done, a reader or an error is recorded. *)
Definition initialised (s : State) : Prop :=
  dbOnce s = true -> dbReader s <> None \/ dbInitErr s <> None.
End Notions.

(** A generic field ([country] or [continent]) is usable when it is
    not empty and two bytes long. *)
Definition usable (field : string) : Prop :=
  field <> EmptyString /\ String.length field = 2.

Definition isFsEvent (ev : event) : bool :=
  match ev with
  | EvStat _ | EvOpen _ | EvFromBytes => true
  | EvHttpGet _ => false
  end.

Definition isOpenEvent (ev : event) : bool :=
  match ev with EvOpen _ => true | _ => false end.

Definition isHttpEvent (ev : event) : bool :=
  match ev with EvHttpGet _ => true | _ => false end.

(** The number of initialisation attempts a trace records: [initDB]
    starts with exactly one [os.Stat]. *)
Definition initAttempts (t : list event) : nat :=
  List.length (List.filter (fun ev => match ev with EvStat _ => true
                                               | _ => false end) t).

(** No upper-case ASCII letter occurs in [s]. *)
Fixpoint noUpper (s : string) : bool :=
  match s with
  | EmptyString => true
  | String c s' => negb (isUpper c) && noUpper s'
  end.

(** ** A concrete library and concrete worlds *)

Definition digit (n : nat) : ascii := ascii_of_nat (48 + n).

Definition decimal (n : nat) : string :=
  if Nat.ltb n 10 then String (digit n) EmptyString
  else if Nat.ltb n 100
  then String (digit (n / 10)) (String (digit (n mod 10)) EmptyString)
  else String (digit (n / 100))
         (String (digit ((n / 10) mod 10))
            (String (digit (n mod 10)) EmptyString)).

Fixpoint dotted (b : list Byte.byte) : string :=
  match b with
  | [] => EmptyString
  | [x] => decimal (Byte.to_nat x)
  | x :: rest => decimal (Byte.to_nat x) ++ "." ++ dotted rest
  end.

(** A library for running the definitions on ASCII text and four-byte
    addresses: the Unicode functions are never reached on ASCII text
    (they are the identity here), and addresses print in dotted
    decimal. *)
Definition plainLib : GoLib :=
  {| unicode_ToLower := fun s => s;
     unicode_TrimFunc := fun s => s;
     unicode_TrimRightFunc := fun s => s;
     IP_String := dotted |}.

Definition ip1 : IP := Some [Byte.x08; Byte.x08; Byte.x08; Byte.x08].
Definition ip2 : IP := Some [Byte.x01; Byte.x01; Byte.x01; Byte.x01].

(** A database with one record, at [ip1]. *)
Definition readerWith (r : IPInfo) : Reader :=
  mkReader (fun ip =>
    match ip with
    | None => EntryError "IP passed to Lookup cannot be nil"
    | Some b => if String.eqb (dotted b) "8.8.8.8"
                then EntryFound r else EntryAbsent
    end).

Definition recUS : IPInfo :=
  mkIPInfo "US" "United States" "United States" "NA" "North America"
           "North America".
Definition recJP : IPInfo :=
  mkIPInfo EmptyString "JP" "Japan" EmptyString "AS" "Asia".
Definition recEU : IPInfo :=
  mkIPInfo EmptyString "Europe" EmptyString "EU" EmptyString EmptyString.
Definition recAS : IPInfo :=
  mkIPInfo EmptyString EmptyString EmptyString EmptyString "AS" "Asia".
Definition recUSA : IPInfo :=
  mkIPInfo "USA" EmptyString EmptyString EmptyString EmptyString
           EmptyString.

(** The network is down. *)
Definition netDown : string -> http_reply :=
  fun _ => GetFailed "dial tcp: i/o timeout".

(** The service answers every request with status 200 and [body]. *)
Definition netSays (body : string) : string -> http_reply :=
  fun _ => Response 200 (ReadAll body).

Definition noFile : string -> stat_result :=
  fun _ => StatFailed "no such file or directory".
Definition aFile : string -> stat_result := fun _ => StatInfo false.
Definition aDir : string -> stat_result := fun _ => StatInfo true.
Definition badOpen : string -> open_result :=
  fun _ => OpenFailed "invalid MaxMind DB file".

(** No external file, network down, embedded database holding [r]. *)
Definition worldEmbedded (r : IPInfo) : World :=
  mkWorld netDown noFile badOpen (Opened (readerWith r)).

(** Nothing works: network down, no external file, embedded database
    unreadable. *)
Definition worldBroken : World :=
  mkWorld netDown noFile badOpen (OpenFailed "error opening database").

(** The package state after an initialisation that failed. *)
Definition failedState : State :=
  mkState true None (Some (lib_error "error opening database")) [].

(** The external file is there but is not a database; the embedded
    database holds [r]. *)
Definition worldCorrupt (r : IPInfo) : World :=
  mkWorld netDown aFile badOpen (Opened (readerWith r)).

(** The external path is a directory; the embedded database holds [r]. *)
Definition worldDirectory (r : IPInfo) : World :=
  mkWorld netDown aDir badOpen (Opened (readerWith r)).

(** ** Sequences of calls *)

(** [dbInitErr] holds nothing that [errors.New] built in this package. *)
Definition initErrFromLib (s : State) : Prop :=
  forall msg, dbInitErr s <> Some (errors_New msg).

(** The external database is used: a regular file that opens. *)
Definition externalUsable (w : World) : Prop :=
  os_Stat w externalDBPath = StatInfo false
  /\ exists r, maxminddb_Open w externalDBPath = Opened r.

(** The world [w] with the external path reported missing. *)
Definition withoutExternal (e : string) (w : World) : World :=
  mkWorld (http_Get w) (fun _ => StatFailed e) (maxminddb_Open w)
          (maxminddb_FromBytes_embeddedDB w).

(** What [initDB] leaves in [dbReader] and [dbInitErr] when it has to
    use the embedded database. *)
Definition embeddedReader (w : World) : option Reader :=
  match maxminddb_FromBytes_embeddedDB w with
  | Opened r => Some r
  | OpenFailed _ => None
  end.

Definition embeddedError (w : World) : option error :=
  match maxminddb_FromBytes_embeddedDB w with
  | Opened _ => None
  | OpenFailed e => Some (lib_error e)
  end.

Section Calls.
Context {L : GoLib}.

(** Calls of [Lookup] made one after the other, each in the world it
    finds, with the results in order and the final state. *)
Fixpoint runLookups (calls : list (World * IP)) (s : State)
  : list outcome * State :=
  match calls with
  | [] => ([], s)
  | (w, ip) :: rest =>
      let '(o, s) := Lookup w ip s in
      let '(os, s) := runLookups rest s in
      (o :: os, s)
  end.
End Calls.

(** ** Concurrent callers *)

(** Where a goroutine that runs [Lookup] stands.  [sync.Once] makes
    the calls of [Do] mutually exclusive and lets none of them return
    before the one run of [initDB] has returned, so a call of [getDB]
    is one step of the interleaving; the remote attempt and the read of
    the record do not touch the package variables. *)
Inductive pc : Type :=
| AtRemote
| AtGetDB
| AtRead (db : option Reader) (err : option error)
| Finished (o : outcome).

(** A caller: the world it runs in, its argument, where it stands, and
    (ghost) what [getDB] has returned to it. *)
Record caller : Type := mkCaller {
  c_world : World;
  c_ip : IP;
  c_pc : pc;
  c_seen : option (option Reader * option error)
}.

Definition fresh (w : World) (ip : IP) : caller :=
  mkCaller w ip AtRemote None.

Definition isFinished (c : caller) : bool :=
  match c_pc c with Finished _ => true | _ => false end.

Fixpoint setNth {A : Type} (i : nat) (x : A) (l : list A) : list A :=
  match l, i with
  | [], _ => []
  | _ :: l', O => x :: l'
  | y :: l', S i' => y :: setNth i' x l'
  end.

Section Interleaving.
Context {L : GoLib}.

(** One step of a caller: the three parts of [Lookup] in order. *)
Definition advance (c : caller) (s : State) : option (caller * State) :=
  match c_pc c with
  | AtRemote =>
      let '((code, err), s) := lookupFromIPInfo (c_world c) (c_ip c) s in
      if isNil err && negb (isEmpty code)
      then Some (mkCaller (c_world c) (c_ip c)
                          (Finished (Return code None)) (c_seen c), s)
      else Some (mkCaller (c_world c) (c_ip c) AtGetDB (c_seen c), s)
  | AtGetDB =>
      let '((db, err), s) := getDB (c_world c) s in
      Some (mkCaller (c_world c) (c_ip c) (AtRead db err)
                     (Some (db, err)), s)
  | AtRead db err =>
      Some (mkCaller (c_world c) (c_ip c)
                     (Finished (lookupRecord db err (c_ip c)))
                     (c_seen c), s)
  | Finished _ => None
  end.

(** The scheduler lets caller [i] take its next step. *)
Definition stepAt (i : nat) (cfg : list caller * State)
  : option (list caller * State) :=
  match nth_error (fst cfg) i with
  | None => None
  | Some c =>
      match advance c (snd cfg) with
      | None => None
      | Some (c', s') => Some (setNth i c' (fst cfg), s')
      end
  end.

(** A schedule is the list of the callers that step, in order. *)
Fixpoint runSchedule (sched : list nat) (cfg : list caller * State)
  : option (list caller * State) :=
  match sched with
  | [] => Some cfg
  | i :: rest =>
      match stepAt i cfg with
      | None => None
      | Some cfg' => runSchedule rest cfg'
      end
  end.

(** A caller run on its own until it has finished. *)
Definition runAlone (c : caller) (s : State) : caller * State :=
  let next (x : caller * State) :=
    match advance (fst x) (snd x) with Some y => y | None => x end in
  next (next (next (c, s))).

(** What the ghost field of a caller says about where it stands: a
    caller that has seen nothing has not passed [getDB]; a caller that
    has seen a handle saw the recorded one, after a failed remote
    attempt, and reads through it. *)
Definition callerOK (s : State) (c : caller) : Prop :=
  match c_seen c with
  | None =>
      match c_pc c with
      | AtRemote => True
      | AtGetDB => remoteOK (c_world c) (c_ip c) initial = false
      | AtRead _ _ => False
      | Finished _ => remoteOK (c_world c) (c_ip c) initial = true
      end
  | Some (db, err) =>
      dbOnce s = true /\ db = dbReader s /\ err = dbInitErr s
      /\ remoteOK (c_world c) (c_ip c) initial = false
      /\ (c_pc c = AtRead db err
          \/ c_pc c = Finished (lookupRecord db err (c_ip c)))
  end.

(** The invariant of the interleaving: no initialisation attempt
    before [dbOnce] is done, one after, made for a caller that has
    seen the handle; and every caller is consistent with the state. *)
Definition invariant (cfg : list caller * State) : Prop :=
  (dbOnce (snd cfg) = false -> initAttempts (trace (snd cfg)) = 0)
  /\ (dbOnce (snd cfg) = true ->
      initAttempts (trace (snd cfg)) = 1
      /\ exists c, In c (fst cfg) /\ c_seen c <> None)
  /\ (forall c, In c (fst cfg) -> callerOK (snd cfg) c).
End Interleaving.

(** The network answers every request with the code [US]. *)
Definition worldRemote : World :=
  mkWorld (netSays "US") noFile badOpen (OpenFailed "none").

(** ** Notions for further properties *)

(** Every byte of [s] is ASCII white space. *)
Fixpoint allSpaces (s : string) : bool :=
  match s with
  | EmptyString => true
  | String c s' => asciiSpace c && allSpaces s'
  end.

(** An ASCII byte that is not white space. *)
Definition plainByte (c : ascii) : bool :=
  isASCIIbyte c && negb (asciiSpace c).

(** The package variables hold nothing before the initialisation, and
    after it either a reader and no error, or no reader and a library
    error. *)
Definition exclusive (s : State) : Prop :=
  (dbOnce s = false /\ dbReader s = None /\ dbInitErr s = None)
  \/ (dbOnce s = true
      /\ ((exists r, dbReader s = Some r /\ dbInitErr s = None)
          \/ (dbReader s = None
              /\ exists e, dbInitErr s = Some (lib_error e)))).

(** The external file is a database holding [r]; the embedded bytes do
    not parse. *)
Definition worldExternal (r : IPInfo) : World :=
  mkWorld netDown aFile (fun _ => Opened (readerWith r))
          (OpenFailed "error opening database").

(** No caller of a configuration has panicked, and the package
    variables are well formed. *)
Definition safe (cfg : list caller * State) : Prop :=
  exclusive (snd cfg)
  /\ forall c o, In c (fst cfg) -> c_pc c = Finished o -> o <> Panic.

(** * Properties *)

(** ** Strings *)

Lemma isEmpty_true (s : string) : isEmpty s = true <-> s = EmptyString.
Proof. destruct s; simpl; split; congruence. Qed.

Lemma isEmpty_false (s : string) : isEmpty s = false <-> s <> EmptyString.
Proof. destruct s; simpl; split; congruence. Qed.

Lemma length_two_not_empty (s : string) :
  String.length s = 2 -> s <> EmptyString.
Proof. destruct s; simpl; congruence. Qed.

Lemma mapBytes_length (f : ascii -> ascii) (s : string) :
  String.length (mapBytes f s) = String.length s.
Proof. induction s as [|c s IH]; simpl; congruence. Qed.

Lemma lowerByte_not_upper (c : ascii) : isUpper (lowerByte c) = false.
Proof.
  unfold lowerByte.
  destruct (isUpper c) eqn:U; [|exact U].
  unfold isUpper in *.
  apply andb_true_iff in U. destruct U as [lo hi].
  apply Nat.leb_le in lo. apply Nat.leb_le in hi.
  rewrite nat_ascii_embedding by lia.
  apply andb_false_iff. right. apply Nat.leb_gt. lia.
Qed.

Lemma mapBytes_lower_noUpper (s : string) :
  noUpper (mapBytes lowerByte s) = true.
Proof.
  induction s as [|c s IH]; simpl; [reflexivity|].
  now rewrite lowerByte_not_upper, IH.
Qed.

Section StringFacts.
Context {L : GoLib}.

Lemma ToLower_ascii (s : string) :
  isASCII s = true -> ToLower s = mapBytes lowerByte s.
Proof. unfold ToLower. now intros ->. Qed.

Lemma ToLower_ascii_length (s : string) :
  isASCII s = true -> String.length (ToLower s) = String.length s.
Proof. intros A. rewrite (ToLower_ascii s A). apply mapBytes_length. Qed.

Lemma ToLower_ascii_noUpper (s : string) :
  isASCII s = true -> noUpper (ToLower s) = true.
Proof.
  intros A. rewrite (ToLower_ascii s A). apply mapBytes_lower_noUpper.
Qed.
End StringFacts.

(** ** The remote tier *)

Section Remote.
Context {L : GoLib}.

Lemma fetchIPInfoCountry_state (w : World) (url : string) (s : State) :
  snd (fetchIPInfoCountry w url s) = log (EvHttpGet url) s.
Proof.
  unfold fetchIPInfoCountry.
  destruct (http_Get w url) as [e|st [e|body]]; simpl;
    repeat match goal with |- context [if ?b then _ else _] =>
                             destruct b end; reflexivity.
Qed.

(** A success of the request names the reply it came from. *)
Lemma fetchIPInfoCountry_ok (w : World) (url : string) (s : State)
      (code : string) :
  fst (fetchIPInfoCountry w url s) = (code, None) ->
  exists body,
    http_Get w url = Response http_StatusOK (ReadAll body)
    /\ String.length (TrimSpace body) = 2
    /\ code = ToLower (TrimSpace body).
Proof.
  unfold fetchIPInfoCountry.
  destruct (http_Get w url) as [e|st [e|body]]; simpl; try discriminate.
  - destruct (Z.eqb st http_StatusOK); discriminate.
  - destruct (Z.eqb st http_StatusOK) eqn:S; simpl; [|discriminate].
    apply Z.eqb_eq in S. subst st.
    destruct (Nat.eqb (String.length (TrimSpace body)) 2) eqn:N; simpl;
      [|discriminate].
    apply Nat.eqb_eq in N. intros [= <-]. eauto.
Qed.

(** C5.  The remote lookup returns [(code, nil)] exactly when the
    reply has status 200 and a readable body whose trimmed form is two
    bytes long, and [code] is then that trimmed form in lower case;
    every other reply (transport failure or timeout, another status,
    a body that cannot be read, another trimmed length) gives the
    empty string and an error. *)
Theorem fetchIPInfoCountry_success_iff
    (w : World) (url : string) (s : State) :
  (forall code,
      fst (fetchIPInfoCountry w url s) = (code, None) <->
      exists body,
        http_Get w url = Response http_StatusOK (ReadAll body)
        /\ String.length (TrimSpace body) = 2
        /\ code = ToLower (TrimSpace body))
  /\ ((forall body,
          http_Get w url = Response http_StatusOK (ReadAll body) ->
          String.length (TrimSpace body) <> 2)
      -> exists e,
          fst (fetchIPInfoCountry w url s) = (EmptyString, Some e)).
Proof.
  unfold fetchIPInfoCountry.
  destruct (http_Get w url) as [e|st [e|body]] eqn:G; simpl.
  - split.
    + intros code; split; [discriminate|].
      intros (body & H & _); discriminate.
    + intros _. eauto.
  - destruct (Z.eqb st http_StatusOK) eqn:S; simpl.
    + split.
      * intros code; split; [discriminate|].
        intros (body & H & _); discriminate.
      * intros _. eauto.
    + split.
      * intros code; split; [discriminate|].
        intros (body & H & _); discriminate.
      * intros _. eauto.
  - destruct (Z.eqb st http_StatusOK) eqn:S; simpl.
    + apply Z.eqb_eq in S. subst st.
      destruct (Nat.eqb (String.length (TrimSpace body)) 2) eqn:N; simpl.
      * apply Nat.eqb_eq in N. split.
        -- intros code; split.
           ++ intros E. exists body. repeat split; congruence.
           ++ intros (b & H & _ & C). congruence.
        -- intros H. exfalso. exact (H body eq_refl N).
      * apply Nat.eqb_neq in N. split.
        -- intros code; split; [discriminate|].
           intros (b & H & N' & _).
           injection H as <-. contradiction.
        -- intros _. eauto.
    + apply Z.eqb_neq in S. split.
      * intros code; split; [discriminate|].
        intros (b & H & _). injection H as H _. contradiction.
      * intros _. eauto.
Qed.
End Remote.

(** The theorem applied to a service that answers [US] followed by a
    line feed, and to a network that is down. *)
Lemma fetchIPInfoCountry_success_iff_witness :
  fst (@fetchIPInfoCountry plainLib
         (mkWorld (netSays (String "U" (String "S" (String "010" EmptyString))))
                  noFile badOpen (OpenFailed "none"))
         "https://ipinfo.io/8.8.8.8/country" initial) = ("us", None)
  /\ exists e,
      fst (@fetchIPInfoCountry plainLib worldBroken
             "https://ipinfo.io/8.8.8.8/country" initial)
      = (EmptyString, Some e).
Proof.
  split.
  - apply (proj1 (@fetchIPInfoCountry_success_iff plainLib _ _ _)).
    exists (String "U" (String "S" (String "010" EmptyString))).
    repeat split; reflexivity.
  - apply (proj2 (@fetchIPInfoCountry_success_iff plainLib worldBroken
                    "https://ipinfo.io/8.8.8.8/country" initial)).
    intros body H. discriminate H.
Defined.

(** ** Basic facts about the state *)

Section StateFacts.
Context {L : GoLib}.

Lemma sameVars_refl (s : State) : sameVars s s.
Proof. repeat split. Qed.

Lemma sameVars_sym (s s' : State) : sameVars s s' -> sameVars s' s.
Proof. intros (a & b & c). repeat split; congruence. Qed.

Lemma sameVars_trans (s1 s2 s3 : State) :
  sameVars s1 s2 -> sameVars s2 s3 -> sameVars s1 s3.
Proof. intros (a & b & c) (d & e & f). repeat split; congruence. Qed.

Lemma sameVars_log (ev : event) (s : State) : sameVars s (log ev s).
Proof. repeat split. Qed.

(** The remote tier never touches the package variables, and its
    result does not depend on them. *)
Lemma lookupFromIPInfo_sameVars (w : World) (ip : IP) (s : State) :
  sameVars s (snd (lookupFromIPInfo w ip s)).
Proof.
  destruct ip as [b|]; simpl; [|apply sameVars_refl].
  rewrite fetchIPInfoCountry_state. apply sameVars_log.
Qed.

Lemma fetchIPInfoCountry_result (w : World) (url : string) (s s' : State) :
  fst (fetchIPInfoCountry w url s) = fst (fetchIPInfoCountry w url s').
Proof.
  unfold fetchIPInfoCountry.
  destruct (http_Get w url) as [e|st [e|body]]; simpl;
    repeat match goal with |- context [if ?b then _ else _] =>
                             destruct b end; reflexivity.
Qed.

Lemma lookupFromIPInfo_result (w : World) (ip : IP) (s s' : State) :
  fst (lookupFromIPInfo w ip s) = fst (lookupFromIPInfo w ip s').
Proof.
  destruct ip as [b|]; simpl; [|reflexivity].
  apply fetchIPInfoCountry_result.
Qed.

Lemma remoteOK_state (w : World) (ip : IP) (s s' : State) :
  remoteOK w ip s = remoteOK w ip s'.
Proof.
  unfold remoteOK. now rewrite (lookupFromIPInfo_result w ip s s').
Qed.

(** The remote tier logs at most one event, an HTTP request. *)
Lemma lookupFromIPInfo_trace (w : World) (ip : IP) (s : State) :
  List.filter isFsEvent (trace (snd (lookupFromIPInfo w ip s)))
  = List.filter isFsEvent (trace s).
Proof.
  destruct ip as [b|]; simpl; [|reflexivity].
  now rewrite fetchIPInfoCountry_state.
Qed.

(** [initDB] reads the package variables only to keep them. *)
Lemma initDB_sameVars (w : World) (s s' : State) :
  sameVars s s' -> sameVars (initDB w s) (initDB w s').
Proof.
  intros (a & b & c). unfold initDB.
  destruct (os_Stat w externalDBPath) as [e|[|]];
    [ | | destruct (maxminddb_Open w externalDBPath) as [e|r]];
    try destruct (maxminddb_FromBytes_embeddedDB w) as [e'|r'];
    repeat split; simpl; assumption.
Qed.

Lemma Once_Do_done (f : State -> State) (s : State) :
  dbOnce s = true -> Once_Do f s = s.
Proof. unfold Once_Do. now intros ->. Qed.

Lemma getDB_done (w : World) (s : State) :
  dbOnce s = true -> getDB w s = ((dbReader s, dbInitErr s), s).
Proof. intros D. unfold getDB. now rewrite (Once_Do_done _ s D). Qed.

Lemma getDB_sameVars (w : World) (s s' : State) :
  sameVars s s' ->
  fst (getDB w s) = fst (getDB w s')
  /\ sameVars (snd (getDB w s)) (snd (getDB w s')).
Proof.
  intros V. pose proof (initDB_sameVars w s s' V) as (a & b & c).
  destruct V as (d & e & f).
  unfold getDB, Once_Do. rewrite <- d.
  destruct (dbOnce s) eqn:D; simpl.
  - split; [congruence|]. unfold sameVars. repeat split; congruence.
  - split; [congruence|]. unfold sameVars. simpl.
    repeat split; congruence.
Qed.

Lemma handle_sameVars (w : World) (s s' : State) :
  sameVars s s' -> handle w s = handle w s'.
Proof. intros V. apply (getDB_sameVars w s s' V). Qed.

(** [Lookup] when the remote tier fails is the local tier run after
    the remote attempt. *)
Lemma Lookup_local (w : World) (ip : IP) (s : State) :
  remoteOK w ip s = false ->
  Lookup w ip s = lookupLocal w ip (snd (lookupFromIPInfo w ip s)).
Proof.
  unfold remoteOK, Lookup.
  destruct (lookupFromIPInfo w ip s) as [[code err] s1]; simpl.
  now intros ->.
Qed.

Lemma Lookup_remote (w : World) (ip : IP) (s : State) :
  remoteOK w ip s = true ->
  Lookup w ip s
  = (Return (fst (fst (lookupFromIPInfo w ip s))) None,
     snd (lookupFromIPInfo w ip s)).
Proof.
  unfold remoteOK, Lookup.
  destruct (lookupFromIPInfo w ip s) as [[code err] s1]; simpl.
  now intros ->.
Qed.

(** The local tier in terms of what [getDB] hands out. *)
Lemma lookupLocal_handle (w : World) (ip : IP) (s : State) :
  fst (lookupLocal w ip s)
  = match handle w s with
    | (_, Some e) => Return EmptyString (Some e)
    | (None, None) => Panic
    | (Some db, None) =>
        match entries db ip with
        | EntryError e => Return EmptyString (Some (lib_error e))
        | EntryAbsent => Return (fst (codeOf zeroIPInfo))
                                (snd (codeOf zeroIPInfo))
        | EntryFound r => Return (fst (codeOf r)) (snd (codeOf r))
        end
    end.
Proof.
  unfold lookupLocal, handle.
  destruct (getDB w s) as [[db err] s1]; simpl.
  destruct db as [db|], err as [e|]; try reflexivity.
  unfold lookupRecord, Reader_Lookup.
  destruct (entries db ip) as [e| |r]; try reflexivity.
  now destruct (codeOf r).
Qed.

Lemma lookupLocal_state (w : World) (ip : IP) (s : State) :
  snd (lookupLocal w ip s) = snd (getDB w s).
Proof.
  unfold lookupLocal. now destruct (getDB w s) as [[db err] s1].
Qed.

(** What [Lookup] returns once the remote tier has failed. *)
Lemma Lookup_local_result (w : World) (ip : IP) (s : State) :
  remoteOK w ip s = false ->
  fst (Lookup w ip s)
  = match handle w s with
    | (_, Some e) => Return EmptyString (Some e)
    | (None, None) => Panic
    | (Some db, None) =>
        match entries db ip with
        | EntryError e => Return EmptyString (Some (lib_error e))
        | EntryAbsent => Return (fst (codeOf zeroIPInfo))
                                (snd (codeOf zeroIPInfo))
        | EntryFound r => Return (fst (codeOf r)) (snd (codeOf r))
        end
    end.
Proof.
  intros R. rewrite (Lookup_local w ip s R), lookupLocal_handle.
  now rewrite <- (handle_sameVars w s _ (lookupFromIPInfo_sameVars w ip s)).
Qed.

Lemma codeOf_zero :
  codeOf zeroIPInfo = (EmptyString, Some (errors_New "IP not found")).
Proof. reflexivity. Qed.
End StateFacts.

(** ** The local tier: which field is returned *)

Section Priority.
Context {L : GoLib}.

Lemma usable_test (field : string) :
  negb (isEmpty field) && Nat.eqb (String.length field) 2 = true
  <-> usable field.
Proof.
  unfold usable. rewrite andb_true_iff, negb_true_iff, isEmpty_false.
  now rewrite Nat.eqb_eq.
Qed.

Lemma usable_test_false (field : string) :
  negb (isEmpty field) && Nat.eqb (String.length field) 2 = false
  <-> ~ usable field.
Proof.
  rewrite <- usable_test. destruct (_ && _); split; congruence.
Qed.

(** C1.  When the remote tier has failed and the active database
    holds a record for the address, [Lookup] returns, in this order
    of priority: the [country_code] field if it is not empty; else
    the [country] field if it is not empty and two bytes long; else
    the [continent_code] field if it is not empty; else the
    [continent] field if it is not empty and two bytes long, each in
    lower case; else the error [IP not found]. *)
Theorem Lookup_extraction_priority
    (w : World) (ip : IP) (s : State) (db : Reader) (r : IPInfo) :
  remoteOK w ip s = false ->
  handle w s = (Some db, None) ->
  entries db ip = EntryFound r ->
  (CountryCode r <> EmptyString ->
     fst (Lookup w ip s) = Return (ToLower (CountryCode r)) None)
  /\ (CountryCode r = EmptyString -> usable (Country r) ->
     fst (Lookup w ip s) = Return (ToLower (Country r)) None)
  /\ (CountryCode r = EmptyString -> ~ usable (Country r) ->
      ContinentCode r <> EmptyString ->
     fst (Lookup w ip s) = Return (ToLower (ContinentCode r)) None)
  /\ (CountryCode r = EmptyString -> ~ usable (Country r) ->
      ContinentCode r = EmptyString -> usable (Continent r) ->
     fst (Lookup w ip s) = Return (ToLower (Continent r)) None)
  /\ (CountryCode r = EmptyString -> ~ usable (Country r) ->
      ContinentCode r = EmptyString -> ~ usable (Continent r) ->
     fst (Lookup w ip s)
     = Return EmptyString (Some (errors_New "IP not found"))).
Proof.
  intros R H E.
  rewrite (Lookup_local_result w ip s R), H, E.
  unfold codeOf.
  repeat split.
  - intros c. apply isEmpty_false in c. now rewrite c.
  - intros c u. apply isEmpty_true in c. apply usable_test in u.
    now rewrite c, u.
  - intros c u k. apply isEmpty_true in c. apply usable_test_false in u.
    apply isEmpty_false in k. now rewrite c, u, k.
  - intros c u k v. apply isEmpty_true in c. apply usable_test_false in u.
    apply isEmpty_true in k. apply usable_test in v.
    now rewrite c, u, k, v.
  - intros c u k v. apply isEmpty_true in c. apply usable_test_false in u.
    apply isEmpty_true in k. apply usable_test_false in v.
    now rewrite c, u, k, v.
Qed.

(** C2.  When the remote lookup returns a non-empty code and no
    error, [Lookup] returns that code and its final state is the one
    the remote lookup left: [getDB] is not called, whatever the
    package variables hold, so they are unchanged and no file-system
    event is logged. *)
Theorem Lookup_remote_wins
    (w : World) (ip : IP) (s : State) (code : string) :
  fst (lookupFromIPInfo w ip s) = (code, None) ->
  code <> EmptyString ->
  fst (Lookup w ip s) = Return code None
  /\ snd (Lookup w ip s) = snd (lookupFromIPInfo w ip s)
  /\ sameVars s (snd (Lookup w ip s))
  /\ List.filter isFsEvent (trace (snd (Lookup w ip s)))
     = List.filter isFsEvent (trace s).
Proof.
  intros E N.
  assert (R : remoteOK w ip s = true).
  { unfold remoteOK. rewrite E. simpl. apply negb_true_iff.
    now apply isEmpty_false. }
  rewrite (Lookup_remote w ip s R), E. simpl.
  repeat split; try apply lookupFromIPInfo_sameVars.
  apply lookupFromIPInfo_trace.
Qed.

(** C3 as the code has it.  When the remote tier has failed and the
    active database has no data for the address, [Lookup] fails with
    the error [IP not found]: the error of the last line of
    [Lookup], which a record with no usable field gives as well. *)
Theorem Lookup_absent_address
    (w : World) (ip : IP) (s : State) (db : Reader) :
  remoteOK w ip s = false ->
  handle w s = (Some db, None) ->
  entries db ip = EntryAbsent ->
  fst (Lookup w ip s)
  = Return EmptyString (Some (errors_New "IP not found")).
Proof.
  intros R H E.
  now rewrite (Lookup_local_result w ip s R), H, E, codeOf_zero.
Qed.
End Priority.

(** The priority theorem at a record of the embedded schema: no
    [country_code], the code in [country]. *)
Lemma Lookup_extraction_priority_witness :
  fst (@Lookup plainLib (worldEmbedded recJP) ip1 initial)
  = Return "jp" None.
Proof.
  refine (proj1 (proj2 (@Lookup_extraction_priority plainLib
            (worldEmbedded recJP) ip1 initial (readerWith recJP) recJP
            _ _ _)) _ _).
  - reflexivity.
  - reflexivity.
  - reflexivity.
  - reflexivity.
  - split; [discriminate | reflexivity].
Defined.

(** The remote tier answers while the database is unusable. *)
Lemma Lookup_remote_wins_witness :
  fst (@Lookup plainLib
         (mkWorld (netSays "US") noFile badOpen (OpenFailed "none"))
         ip1 failedState) = Return "us" None.
Proof.
  refine (proj1 (@Lookup_remote_wins plainLib
            (mkWorld (netSays "US") noFile badOpen (OpenFailed "none"))
            ip1 failedState "us" _ _)).
  - reflexivity.
  - discriminate.
Defined.

Lemma Lookup_absent_address_witness :
  fst (@Lookup plainLib (worldEmbedded recUS) ip2 initial)
  = Return EmptyString (Some (errors_New "IP not found")).
Proof.
  apply (@Lookup_absent_address plainLib (worldEmbedded recUS) ip2 initial
           (readerWith recUS)); reflexivity.
Defined.

(** C3 as stated fails: an address the database has no data for does
    not get an error of its own kind.  With [recUS] stored at [ip1]
    only, [Lookup] at [ip2] returns the very error [IP not found] that
    marks a record without usable fields. *)
Lemma absent_address_error_not_distinct :
  ~ (forall (L : GoLib) (w : World) (ip : IP) (s : State) (db : Reader),
        remoteOK w ip s = false ->
        handle w s = (Some db, None) ->
        entries db ip = EntryAbsent ->
        exists e, fst (Lookup w ip s) = Return EmptyString (Some e)
                  /\ e <> errors_New "IP not found").
Proof.
  intros H.
  destruct (H plainLib (worldEmbedded recUS) ip2 initial (readerWith recUS)
              eq_refl eq_refl eq_refl) as (e & E & N).
  apply N. vm_compute in E. congruence.
Qed.

(** ** The shape of a successful result *)

Section Shape.
Context {L : GoLib}.

Lemma mapBytes_not_empty (f : ascii -> ascii) (x : string) :
  x <> EmptyString -> mapBytes f x <> EmptyString.
Proof. destruct x; simpl; congruence. Qed.

Lemma ToLower_not_empty (x : string) :
  (forall y, y <> EmptyString -> unicode_ToLower y <> EmptyString) ->
  x <> EmptyString -> ToLower x <> EmptyString.
Proof.
  intros U N. unfold ToLower.
  destruct (isASCII x); [now apply mapBytes_not_empty | now apply U].
Qed.

(** A success of the field selection names the field it took. *)
Lemma codeOf_success (r : IPInfo) (code : string) :
  codeOf r = (code, None) ->
  exists x, code = ToLower x /\ x <> EmptyString
    /\ (x = CountryCode r \/ x = ContinentCode r
        \/ (x = Country r /\ String.length x = 2)
        \/ (x = Continent r /\ String.length x = 2)).
Proof.
  unfold codeOf.
  destruct (isEmpty (CountryCode r)) eqn:c; simpl.
  2:{ intros [= <-]. exists (CountryCode r).
      apply isEmpty_false in c. repeat split; auto. }
  destruct (negb (isEmpty (Country r))
            && Nat.eqb (String.length (Country r)) 2) eqn:u.
  { intros [= <-]. exists (Country r).
    apply usable_test in u. destruct u. repeat split; auto. }
  destruct (isEmpty (ContinentCode r)) eqn:k; simpl.
  2:{ intros [= <-]. exists (ContinentCode r).
      apply isEmpty_false in k. repeat split; auto. }
  destruct (negb (isEmpty (Continent r))
            && Nat.eqb (String.length (Continent r)) 2) eqn:v.
  { intros [= <-]. exists (Continent r).
    apply usable_test in v. destruct v. repeat split; auto 6. }
  discriminate.
Qed.

(** A success of the remote tier is the lower-cased two-byte trimmed
    body of a reply. *)
Lemma lookupFromIPInfo_success (w : World) (ip : IP) (s : State)
      (code : string) :
  fst (lookupFromIPInfo w ip s) = (code, None) ->
  exists body, code = ToLower (TrimSpace body)
               /\ String.length (TrimSpace body) = 2.
Proof.
  destruct ip as [b|]; simpl; [|discriminate].
  intros E.
  apply fetchIPInfoCountry_ok in E.
  destruct E as (body & _ & N & C). eauto.
Qed.

(** C4 as the code has it.  A successful [Lookup] never returns the
    empty string: it returns [ToLower x] for a non-empty [x] that is
    either the two-byte trimmed body of the remote reply, or the
    [country_code] or [continent_code] field of the record (of any
    length), or its two-byte [country] or [continent] field; on ASCII
    text the result has the length of [x] and no upper-case
    letter. *)
Theorem Lookup_success_shape
    (w : World) (ip : IP) (s : State) (code : string) :
  (forall y, y <> EmptyString -> unicode_ToLower y <> EmptyString) ->
  fst (Lookup w ip s) = Return code None ->
  code <> EmptyString
  /\ exists x,
      code = ToLower x /\ x <> EmptyString
      /\ ((remoteOK w ip s = true /\ String.length x = 2)
          \/ (remoteOK w ip s = false
              /\ exists db r,
                  handle w s = (Some db, None)
                  /\ entries db ip = EntryFound r
                  /\ (x = CountryCode r \/ x = ContinentCode r
                      \/ (x = Country r /\ String.length x = 2)
                      \/ (x = Continent r /\ String.length x = 2))))
      /\ (isASCII x = true ->
          String.length code = String.length x
          /\ noUpper code = true).
Proof.
  intros U E.
  destruct (remoteOK w ip s) eqn:R.
  - rewrite (Lookup_remote w ip s R) in E. simpl in E.
    injection E as E.
    unfold remoteOK in R.
    destruct (fst (lookupFromIPInfo w ip s)) as [c err] eqn:F.
    simpl in E. subst c.
    apply andb_true_iff in R. destruct R as [Rn Re].
    destruct err; [discriminate|].
    apply negb_true_iff, isEmpty_false in Re.
    destruct (lookupFromIPInfo_success w ip s code F) as (body & C & N).
    split; [exact Re|].
    exists (TrimSpace body). repeat split; auto.
    + now apply length_two_not_empty.
    + subst code. now apply ToLower_ascii_length.
    + subst code. now apply ToLower_ascii_noUpper.
  - rewrite (Lookup_local_result w ip s R) in E.
    destruct (handle w s) as [[db|] [e|]] eqn:H; try discriminate.
    destruct (entries db ip) as [e| |r] eqn:F; try discriminate.
    assert (C : codeOf r = (code, None)).
    { destruct (codeOf r) as [c e]. simpl in E. congruence. }
    destruct (codeOf_success r code C) as (x & Cx & Nx & Fx).
    split; [subst code; now apply ToLower_not_empty|].
    exists x. repeat split; auto.
    + right. split; [reflexivity|]. exists db, r. auto.
    + subst code. now apply ToLower_ascii_length.
    + subst code. now apply ToLower_ascii_noUpper.
Qed.
End Shape.

Lemma Lookup_success_shape_witness :
  "usa" <> EmptyString.
Proof.
  refine (proj1 (@Lookup_success_shape plainLib (worldEmbedded recUSA) ip1
                   initial "usa" _ _)).
  - intros y N. exact N.
  - reflexivity.
Defined.

(** C4 as stated fails: a [country_code] field of three letters is
    returned, lower-cased, as a three-letter result. *)
Lemma Lookup_result_not_two_letters :
  ~ (forall (L : GoLib) (w : World) (ip : IP) (s : State) (code : string),
        fst (Lookup w ip s) = Return code None ->
        String.length code = 2)
  /\ fst (@Lookup plainLib (worldEmbedded recUSA) ip1 initial)
     = Return "usa" None.
Proof.
  split; [|reflexivity].
  intros H.
  pose proof (H plainLib (worldEmbedded recUSA) ip1 initial "usa" eq_refl)
    as E.
  discriminate E.
Qed.

(** ** Initialisation *)

Section Init.
Context {L : GoLib}.

(** What [initDB] does when the external database cannot be used: it
    logs the [os.Stat], the [maxminddb.Open] if the path is a regular
    file, and the parse of the embedded bytes, and records the embedded
    reader or the parse error. *)
Lemma initDB_embedded (w : World) (s : State) :
  ~ externalUsable w ->
  dbOnce (initDB w s) = dbOnce s
  /\ dbReader (initDB w s)
     = match embeddedReader w with Some r => Some r | None => dbReader s end
  /\ dbInitErr (initDB w s)
     = match embeddedError w with Some e => Some e | None => dbInitErr s end
  /\ exists t, trace (initDB w s) = EvFromBytes :: t.
Proof.
  intros N. unfold initDB, embeddedReader, embeddedError.
  destruct (os_Stat w externalDBPath) as [e|[|]] eqn:S.
  - destruct (maxminddb_FromBytes_embeddedDB w); simpl; eauto 6.
  - destruct (maxminddb_FromBytes_embeddedDB w); simpl; eauto 6.
  - destruct (maxminddb_Open w externalDBPath) as [e|r] eqn:O.
    + destruct (maxminddb_FromBytes_embeddedDB w); simpl; eauto 6.
    + exfalso. apply N. split; eauto.
Qed.

(** [initDB] logs exactly one [os.Stat]. *)
Lemma initDB_attempts (w : World) (s : State) :
  initAttempts (trace (initDB w s)) = S (initAttempts (trace s)).
Proof.
  unfold initDB.
  destruct (os_Stat w externalDBPath) as [e|[|]];
    [ | | destruct (maxminddb_Open w externalDBPath) as [e|r]];
    try destruct (maxminddb_FromBytes_embeddedDB w) as [e'|r'];
    reflexivity.
Qed.

(** Once [dbOnce] is done, [Lookup] leaves the package variables alone,
    touches no file, and answers a failed remote tier from the recorded
    reader and error. *)
Lemma Lookup_done (w : World) (ip : IP) (s : State) :
  dbOnce s = true ->
  sameVars s (snd (Lookup w ip s))
  /\ List.filter isFsEvent (trace (snd (Lookup w ip s)))
     = List.filter isFsEvent (trace s)
  /\ (remoteOK w ip s = false ->
      fst (Lookup w ip s) = lookupRecord (dbReader s) (dbInitErr s) ip).
Proof.
  intros D.
  pose proof (lookupFromIPInfo_sameVars w ip s) as V.
  pose proof (lookupFromIPInfo_trace w ip s) as T.
  destruct (remoteOK w ip s) eqn:R.
  - rewrite (Lookup_remote w ip s R). simpl.
    repeat split; try apply V; [exact T | discriminate].
  - rewrite (Lookup_local w ip s R).
    set (s1 := snd (lookupFromIPInfo w ip s)) in *.
    assert (D1 : dbOnce s1 = true) by (destruct V as (a & _); congruence).
    unfold lookupLocal. rewrite (getDB_done w s1 D1). simpl.
    destruct V as (a & b & c).
    repeat split; try assumption.
    intros _. now rewrite b, c.
Qed.

Lemma runLookups_done (calls : list (World * IP)) (s : State) :
  dbOnce s = true ->
  sameVars s (snd (runLookups calls s))
  /\ List.filter isFsEvent (trace (snd (runLookups calls s)))
     = List.filter isFsEvent (trace s)
  /\ Forall2 (fun call out =>
                remoteOK (fst call) (snd call) initial = false ->
                out = lookupRecord (dbReader s) (dbInitErr s) (snd call))
             calls (fst (runLookups calls s)).
Proof.
  revert s. induction calls as [|[w ip] rest IH]; intros s D; simpl.
  - repeat split. constructor.
  - destruct (Lookup_done w ip s D) as (V & T & R).
    destruct (Lookup w ip s) as [o s1]. simpl in V, T, R.
    assert (D1 : dbOnce s1 = true) by (destruct V as (a & _); congruence).
    destruct (IH s1 D1) as (V' & T' & F).
    destruct (runLookups rest s1) as [os s2]. simpl in *.
    split; [exact (sameVars_trans _ _ _ V V')|].
    split; [congruence|].
    constructor.
    + simpl. intros R0. apply R.
      now rewrite (remoteOK_state w ip s initial).
    + destruct V as (_ & b & c). rewrite b, c. exact F.
Qed.

(** The first [Lookup] that reaches the local tier on fresh package
    variables, when the external database cannot be used. *)
Lemma Lookup_first_embedded (w : World) (ip : IP) (s : State) :
  sameVars initial s ->
  ~ externalUsable w ->
  remoteOK w ip s = false ->
  dbOnce (snd (Lookup w ip s)) = true
  /\ dbReader (snd (Lookup w ip s)) = embeddedReader w
  /\ dbInitErr (snd (Lookup w ip s)) = embeddedError w
  /\ initAttempts (trace (snd (Lookup w ip s)))
     = S (initAttempts (trace s))
  /\ In EvFromBytes (trace (snd (Lookup w ip s)))
  /\ fst (Lookup w ip s)
     = lookupRecord (embeddedReader w) (embeddedError w) ip.
Proof.
  intros V N R.
  rewrite (Lookup_local w ip s R).
  set (s1 := snd (lookupFromIPInfo w ip s)).
  assert (V1 : sameVars initial s1).
  { exact (sameVars_trans _ _ _ V (lookupFromIPInfo_sameVars w ip s)). }
  assert (A1 : initAttempts (trace s1) = initAttempts (trace s)).
  { unfold s1. destruct ip as [b|]; simpl; [|reflexivity].
    now rewrite fetchIPInfoCountry_state. }
  destruct V1 as (a & b & c). simpl in a, b, c.
  destruct (initDB_embedded w s1 N) as (d & e & f & t & g).
  pose proof (initDB_attempts w s1) as h.
  unfold lookupLocal, getDB, Once_Do. rewrite <- a. simpl.
  rewrite e, f, <- b, <- c, h, A1, g.
  repeat split; try (now left);
    destruct (embeddedReader w), (embeddedError w); reflexivity.
Qed.
End Init.

(** ** Caching of the initialisation outcome *)

Lemma initAttempts_fs (t : list event) :
  initAttempts t = initAttempts (List.filter isFsEvent t).
Proof.
  unfold initAttempts.
  induction t as [|ev t IH]; [reflexivity|].
  destruct ev; simpl; congruence.
Qed.

Section Cache.
Context {L : GoLib}.

(** C6.  When neither database can be used, the first [Lookup] that
    reaches the local tier records the parse error of the embedded
    database, in one initialisation attempt, and returns it; every later
    [Lookup] whose remote tier does not succeed returns that same
    error, in whatever world it runs, and the later calls change no
    package variable, log no file-system event and make no further
    initialisation attempt. *)
Theorem init_failure_is_cached
    (w0 : World) (ip0 : IP) (s0 : State) (e0 : string)
    (calls : list (World * IP)) :
  sameVars initial s0 ->
  ~ externalUsable w0 ->
  maxminddb_FromBytes_embeddedDB w0 = OpenFailed e0 ->
  remoteOK w0 ip0 s0 = false ->
  fst (Lookup w0 ip0 s0) = Return EmptyString (Some (lib_error e0))
  /\ dbInitErr (snd (Lookup w0 ip0 s0)) = Some (lib_error e0)
  /\ initAttempts (trace (snd (Lookup w0 ip0 s0)))
     = S (initAttempts (trace s0))
  /\ sameVars (snd (Lookup w0 ip0 s0))
              (snd (runLookups calls (snd (Lookup w0 ip0 s0))))
  /\ List.filter isFsEvent
       (trace (snd (runLookups calls (snd (Lookup w0 ip0 s0)))))
     = List.filter isFsEvent (trace (snd (Lookup w0 ip0 s0)))
  /\ initAttempts (trace (snd (runLookups calls (snd (Lookup w0 ip0 s0)))))
     = initAttempts (trace (snd (Lookup w0 ip0 s0)))
  /\ Forall2 (fun call out =>
                remoteOK (fst call) (snd call) initial = false ->
                out = Return EmptyString (Some (lib_error e0)))
             calls (fst (runLookups calls (snd (Lookup w0 ip0 s0)))).
Proof.
  intros V N F R.
  destruct (Lookup_first_embedded w0 ip0 s0 V N R)
    as (D & Rd & Er & A & _ & O).
  assert (Ee : embeddedError w0 = Some (lib_error e0))
    by (unfold embeddedError; now rewrite F).
  rewrite Ee in Er, O.
  destruct (runLookups_done calls _ D) as (V' & T & Q).
  refine (conj O (conj Er (conj A (conj V' (conj T (conj _ _)))))).
  - rewrite (initAttempts_fs (trace (snd (runLookups calls _)))).
    rewrite T. symmetry. apply initAttempts_fs.
  - rewrite Er in Q. revert Q. apply Forall2_impl.
    intros call out H R0. now rewrite (H R0).
Qed.

(** C7.  When the external file is missing, or is a regular file that
    does not open as a database, the first [Lookup] that reaches the
    local tier parses the embedded database and records its reader (or
    its parse error); that call and every later call whose remote tier
    fails are answered from the embedded database. *)
Theorem embedded_fallback
    (w : World) (ip : IP) (s : State) (calls : list (World * IP)) :
  sameVars initial s ->
  (exists e, os_Stat w externalDBPath = StatFailed e)
  \/ (os_Stat w externalDBPath = StatInfo false
      /\ exists e, maxminddb_Open w externalDBPath = OpenFailed e) ->
  remoteOK w ip s = false ->
  In EvFromBytes (trace (snd (Lookup w ip s)))
  /\ dbReader (snd (Lookup w ip s)) = embeddedReader w
  /\ dbInitErr (snd (Lookup w ip s)) = embeddedError w
  /\ fst (Lookup w ip s)
     = lookupRecord (embeddedReader w) (embeddedError w) ip
  /\ Forall2 (fun call out =>
                remoteOK (fst call) (snd call) initial = false ->
                out = lookupRecord (embeddedReader w) (embeddedError w)
                                   (snd call))
             calls (fst (runLookups calls (snd (Lookup w ip s)))).
Proof.
  intros V C R.
  assert (N : ~ externalUsable w).
  { intros (S & r & O). destruct C as [(e & S')|(_ & e & O')]; congruence. }
  destruct (Lookup_first_embedded w ip s V N R)
    as (D & Rd & Er & _ & I & O).
  destruct (runLookups_done calls _ D) as (_ & _ & Q).
  rewrite Rd, Er in Q.
  exact (conj I (conj Rd (conj Er (conj O Q)))).
Qed.

(** C10.  A directory at the external path is handled as a missing
    file: [initDB] ends in the same state as in the world where
    [os.Stat] fails, logs no [maxminddb.Open], and records what the
    parse of the embedded database gives. *)
Theorem directory_is_like_absent (w : World) (s : State) (e : string) :
  os_Stat w externalDBPath = StatInfo true ->
  initDB w s = initDB (withoutExternal e w) s
  /\ getDB w s = getDB (withoutExternal e w) s
  /\ List.filter isOpenEvent (trace (initDB w s))
     = List.filter isOpenEvent (trace s)
  /\ In EvFromBytes (trace (initDB w s))
  /\ dbReader (initDB w s)
     = match embeddedReader w with Some r => Some r | None => dbReader s end
  /\ dbInitErr (initDB w s)
     = match embeddedError w with Some x => Some x | None => dbInitErr s end.
Proof.
  intros S.
  assert (E : initDB w s = initDB (withoutExternal e w) s).
  { unfold initDB, withoutExternal. simpl. now rewrite S. }
  split; [exact E|].
  split; [unfold getDB, Once_Do; now rewrite E|].
  unfold initDB, embeddedReader, embeddedError. rewrite S.
  destruct (maxminddb_FromBytes_embeddedDB w); simpl; auto 6.
Qed.
End Cache.

(** Nothing works at the first call; the later call runs in a world
    whose embedded database would parse. *)
Lemma init_failure_is_cached_witness :
  fst (@Lookup plainLib worldBroken ip1 initial)
  = Return EmptyString (Some (lib_error "error opening database")).
Proof.
  refine (proj1 (@init_failure_is_cached plainLib worldBroken ip1 initial
                   "error opening database" [(worldEmbedded recUS, ip1)]
                   _ _ _ _)).
  - repeat split.
  - intros (S & _). discriminate S.
  - reflexivity.
  - reflexivity.
Defined.

(** The external file is a regular file that is not a database. *)
Lemma embedded_fallback_witness :
  fst (@Lookup plainLib (worldCorrupt recJP) ip1 initial)
  = Return "jp" None.
Proof.
  refine (proj1 (proj2 (proj2 (proj2
            (@embedded_fallback plainLib (worldCorrupt recJP) ip1 initial
               [] _ _ _))))).
  - repeat split.
  - right. split; [reflexivity|]. eexists. reflexivity.
  - reflexivity.
Defined.

Lemma directory_is_like_absent_witness :
  @initDB (worldDirectory recJP) initial
  = @initDB (withoutExternal "no such file or directory"
               (worldDirectory recJP)) initial.
Proof.
  refine (proj1 (@directory_is_like_absent (worldDirectory recJP) initial
                   "no such file or directory" _)).
  reflexivity.
Defined.

(** ** The nil address *)

Section NilAddress.
Context {L : GoLib}.

(** [initDB] issues no network request. *)
Lemma initDB_http (w : World) (s : State) :
  List.filter isHttpEvent (trace (initDB w s))
  = List.filter isHttpEvent (trace s).
Proof.
  unfold initDB.
  destruct (os_Stat w externalDBPath) as [e|[|]];
    [ | | destruct (maxminddb_Open w externalDBPath) as [e|r]];
    try destruct (maxminddb_FromBytes_embeddedDB w) as [e'|r'];
    reflexivity.
Qed.

(** [initDB] records library errors only. *)
Lemma initDB_errFromLib (w : World) (s : State) :
  initErrFromLib s -> initErrFromLib (initDB w s).
Proof.
  unfold initErrFromLib, initDB. intros H msg.
  destruct (os_Stat w externalDBPath) as [e|[|]];
    [ | | destruct (maxminddb_Open w externalDBPath) as [e|r]];
    try destruct (maxminddb_FromBytes_embeddedDB w) as [e'|r'];
    simpl; solve [apply H | discriminate].
Qed.

Lemma getDB_errFromLib (w : World) (s : State) (msg : string) :
  initErrFromLib s -> snd (fst (getDB w s)) <> Some (errors_New msg).
Proof.
  intros H. unfold getDB, Once_Do.
  destruct (dbOnce s); simpl; [apply H|].
  apply (initDB_errFromLib w s H).
Qed.

(** The errors the end of [Lookup] can return: the one [getDB] handed
    out, a library error of the record lookup, or [IP not found]. *)
Lemma lookupRecord_error (db : option Reader) (err : option error)
      (ip : IP) (code msg : string) :
  lookupRecord db err ip = Return code (Some (errors_New msg)) ->
  err = Some (errors_New msg) \/ msg = "IP not found".
Proof.
  unfold lookupRecord.
  destruct err as [e|]; [intros [= _ ->]; now left|].
  destruct db as [db|]; [|discriminate].
  unfold Reader_Lookup.
  destruct (entries db ip) as [e| |r]; [discriminate| |].
  - rewrite codeOf_zero. intros [= _ <-]. now right.
  - unfold codeOf.
    repeat match goal with
           | |- context [if ?b then _ else _] => destruct b
           end; try discriminate.
    intros [= _ <-]. now right.
Qed.

(** C8.  For the nil address the remote lookup returns the error
    [nil ip] and leaves the state, hence the trace, as it was: no
    request is made.  [Lookup] then runs its local tier: [getDB] is
    called, no request is logged, and the error [nil ip] is not what
    [Lookup] returns. *)
Theorem nil_ip_is_swallowed (w : World) (s : State) :
  initErrFromLib s ->
  lookupFromIPInfo w None s = ((EmptyString, Some (errors_New "nil ip")), s)
  /\ Lookup w None s = lookupLocal w None s
  /\ dbOnce (snd (Lookup w None s)) = true
  /\ List.filter isHttpEvent (trace (snd (Lookup w None s)))
     = List.filter isHttpEvent (trace s)
  /\ forall code,
      fst (Lookup w None s) <> Return code (Some (errors_New "nil ip")).
Proof.
  intros H.
  assert (E : Lookup w None s = lookupLocal w None s) by reflexivity.
  split; [reflexivity|]. split; [exact E|].
  rewrite E, lookupLocal_state.
  split; [|split].
  - unfold getDB, Once_Do. destruct (dbOnce s) eqn:D; [exact D|reflexivity].
  - unfold getDB, Once_Do. destruct (dbOnce s); [reflexivity|].
    apply initDB_http.
  - intros code C.
    unfold lookupLocal in C.
    pose proof (getDB_errFromLib w s "nil ip" H) as G.
    destruct (getDB w s) as [[db err] s1]. simpl in C, G.
    destruct (lookupRecord_error db err None code "nil ip" C) as [X|X];
      [contradiction|discriminate].
Qed.
End NilAddress.

Lemma nil_ip_is_swallowed_witness :
  fst (@Lookup plainLib (worldEmbedded recUS) None initial)
  = Return EmptyString (Some (lib_error "IP passed to Lookup cannot be nil"))
  /\ forall code,
      fst (@Lookup plainLib (worldEmbedded recUS) None initial)
      <> Return code (Some (errors_New "nil ip")).
Proof.
  split; [reflexivity|].
  refine (proj2 (proj2 (proj2 (proj2
            (@nil_ip_is_swallowed plainLib (worldEmbedded recUS) initial
               _))))).
  intros msg. discriminate.
Defined.

(** ** Concurrent first calls *)

Lemma setNth_In {A : Type} (i : nat) (x y c : A) (l : list A) :
  nth_error l i = Some c -> In y (setNth i x l) -> y = x \/ In y l.
Proof.
  revert i. induction l as [|a l IH]; intros [|i] H I; simpl in *;
    try discriminate.
  - destruct I as [<-|I]; auto.
  - destruct I as [<-|I]; auto.
    destruct (IH i H I); auto.
Qed.

Lemma setNth_new {A : Type} (i : nat) (x c : A) (l : list A) :
  nth_error l i = Some c -> In x (setNth i x l).
Proof.
  revert i. induction l as [|a l IH]; intros [|i] H; simpl in *;
    try discriminate; eauto.
Qed.

Lemma setNth_old {A : Type} (i : nat) (x y c : A) (l : list A) :
  nth_error l i = Some c -> In y l -> y = c \/ In y (setNth i x l).
Proof.
  revert i. induction l as [|a l IH]; intros [|i] H I; simpl in *;
    try discriminate.
  - injection H as <-. destruct I as [<-|I]; auto.
  - destruct I as [<-|I]; auto.
    destruct (IH i H I); auto.
Qed.

Section Concurrency.
Context {L : GoLib}.

Lemma lookupFromIPInfo_attempts (w : World) (ip : IP) (s : State) :
  initAttempts (trace (snd (lookupFromIPInfo w ip s)))
  = initAttempts (trace s).
Proof.
  rewrite (initAttempts_fs (trace (snd _))), lookupFromIPInfo_trace.
  symmetry. apply initAttempts_fs.
Qed.

(** A state change after [dbOnce] is done keeps a caller consistent. *)
Lemma callerOK_mono (s s' : State) (c : caller) :
  (dbOnce s = true -> sameVars s s') -> callerOK s c -> callerOK s' c.
Proof.
  unfold callerOK. intros M.
  destruct (c_seen c) as [[db err]|]; [|exact (fun H => H)].
  intros (D & -> & -> & R & P).
  destruct (M D) as (a & b & c0).
  rewrite <- a, <- b, <- c0. auto.
Qed.

(** What one step of a caller does to the caller and to the state. *)
Lemma advance_spec (c c' : caller) (s s' : State) :
  callerOK s c ->
  advance c s = Some (c', s') ->
  callerOK s' c'
  /\ (dbOnce s = true ->
      sameVars s s' /\ initAttempts (trace s') = initAttempts (trace s))
  /\ (dbOnce s = false ->
      (dbOnce s' = false
       /\ initAttempts (trace s') = initAttempts (trace s))
      \/ (dbOnce s' = true
          /\ initAttempts (trace s') = S (initAttempts (trace s))
          /\ c_seen c' <> None))
  /\ (c_seen c <> None -> c_seen c' <> None).
Proof.
  unfold callerOK, advance.
  destruct c as [w ip p seen]; simpl.
  destruct p as [| |db err|o]; [| | |discriminate].
  - (* the remote attempt *)
    destruct seen as [[db err]|];
      [intros (_ & _ & _ & _ & [P|P]); discriminate P|intros _].
    pose proof (lookupFromIPInfo_sameVars w ip s) as V.
    pose proof (lookupFromIPInfo_attempts w ip s) as A.
    pose proof (remoteOK_state w ip s initial) as R.
    unfold remoteOK in R at 1.
    destruct (lookupFromIPInfo w ip s) as [[code e] s1].
    simpl in V, A, R.
    destruct (isNil e && negb (isEmpty code)) eqn:T;
      intros [= <- <-]; simpl;
      (split; [now symmetry|]);
      (split; [auto|]);
      (split; [|auto]);
      intros D; left; destruct V as (a & _); split; congruence.
  - (* the call of getDB *)
    destruct seen as [[db err]|];
      [intros (_ & _ & _ & _ & [P|P]); discriminate P|intros R].
    unfold getDB, Once_Do.
    destruct (dbOnce s) eqn:D; intros [= <- <-]; simpl.
    + rewrite D. repeat split; auto; try discriminate.
    + repeat split; auto; try discriminate.
      intros _. right. repeat split; [apply initDB_attempts|discriminate].
  - (* the read through the handle *)
    destruct seen as [[db0 err0]|]; [|intros []].
    intros (D & Hd & He & R & [P|P]); [|discriminate P].
    injection P as -> ->.
    intros [= <- <-]; simpl.
    repeat split; auto; try discriminate.
Qed.

(** The invariant holds at the start and after every step. *)
Lemma invariant_start (cs0 : list (World * IP)) :
  invariant (map (fun x => fresh (fst x) (snd x)) cs0, initial).
Proof.
  unfold invariant. simpl. split; [reflexivity|].
  split; [discriminate|].
  intros c I. apply in_map_iff in I. destruct I as (x & <- & _).
  exact Logic.I.
Qed.

Lemma invariant_step (i : nat) (cfg cfg' : list caller * State) :
  invariant cfg -> stepAt i cfg = Some cfg' -> invariant cfg'.
Proof.
  destruct cfg as [cs s]. unfold invariant, stepAt. simpl.
  intros (I0 & I1 & IC).
  destruct (nth_error cs i) as [c|] eqn:N; [|discriminate].
  destruct (advance c s) as [[c' s']|] eqn:A; [|discriminate].
  intros [= <-]. simpl.
  assert (Ic : In c cs) by (eapply nth_error_In; eassumption).
  destruct (advance_spec c c' s s' (IC c Ic) A) as (P1 & P2 & P3 & P4).
  assert (M : dbOnce s = true -> sameVars s s') by (intros D; apply P2, D).
  split; [|split].
  - intros D'. destruct (dbOnce s) eqn:D.
    + destruct (M eq_refl) as (a & _). congruence.
    + destruct (P3 eq_refl) as [(_ & E)|(E & _)]; [|congruence].
      rewrite E. now apply I0.
  - intros D'. destruct (dbOnce s) eqn:D.
    + destruct (P2 eq_refl) as (_ & E).
      destruct (I1 eq_refl) as (E1 & x & Ix & Sx).
      split; [congruence|].
      destruct (setNth_old i c' x c cs N Ix) as [->|Ix'].
      * exists c'. split; [eapply setNth_new; eassumption|now apply P4].
      * exists x. now split.
    + destruct (P3 eq_refl) as [(E & _)|(_ & E & Sc)]; [congruence|].
      split; [rewrite E, (I0 eq_refl); reflexivity|].
      exists c'. split; [eapply setNth_new; eassumption|exact Sc].
  - intros x Ix.
    destruct (setNth_In i c' x c cs N Ix) as [->|Ix']; [exact P1|].
    apply (callerOK_mono s s' x M). now apply IC.
Qed.

Lemma invariant_run (sched : list nat) (cfg cfg' : list caller * State) :
  invariant cfg -> runSchedule sched cfg = Some cfg' -> invariant cfg'.
Proof.
  revert cfg. induction sched as [|i rest IH]; intros cfg I; simpl.
  - now intros [= <-].
  - destruct (stepAt i cfg) as [cfg1|] eqn:S; [|discriminate].
    apply IH. exact (invariant_step i cfg cfg1 I S).
Qed.
End Concurrency.

Section ConcurrentInit.
Context {L : GoLib}.

(** The steps of one caller, taken without interruption, are [Lookup]. *)
Lemma runAlone_is_Lookup (w : World) (ip : IP) (s : State) :
  c_pc (fst (runAlone (fresh w ip) s)) = Finished (fst (Lookup w ip s))
  /\ snd (runAlone (fresh w ip) s) = snd (Lookup w ip s).
Proof.
  unfold runAlone, Lookup, lookupLocal, fresh, advance. simpl.
  destruct (lookupFromIPInfo w ip s) as [[code err] s1].
  destruct (isNil err && negb (isEmpty code)); simpl; [now split|].
  destruct (getDB w s1) as [[db e] s2]. simpl. now split.
Qed.

(** What holds at every configuration that an interleaving of first
    calls reaches: [initDB] has been attempted at most once, and
    exactly when some caller has come back from [getDB]; every such
    caller was handed the recorded reader and error; and a caller that
    has finished went through [getDB] exactly when its remote tier
    failed, its result then being read through the recorded handle. *)
Lemma concurrent_init_at_most_once
    (cs0 : list (World * IP)) (sched : list nat)
    (cs : list caller) (s : State) :
  runSchedule sched (map (fun x => fresh (fst x) (snd x)) cs0, initial)
  = Some (cs, s) ->
  initAttempts (trace s) <= 1
  /\ (initAttempts (trace s) = 1 <->
      exists c, In c cs /\ c_seen c <> None)
  /\ (forall c h, In c cs -> c_seen c = Some h ->
                  h = (dbReader s, dbInitErr s))
  /\ (forall c, In c cs -> isFinished c = true ->
        (c_seen c <> None <->
         remoteOK (c_world c) (c_ip c) initial = false)
        /\ (remoteOK (c_world c) (c_ip c) initial = false ->
            c_pc c = Finished (lookupRecord (dbReader s) (dbInitErr s)
                                            (c_ip c)))).
Proof.
  intros R.
  pose proof (invariant_run sched _ _ (invariant_start cs0) R)
    as (I0 & I1 & IC).
  simpl in I0, I1, IC.
  split; [|split; [|split]].
  - destruct (dbOnce s); [destruct (I1 eq_refl) as (E & _)|
                          pose proof (I0 eq_refl) as E]; rewrite E; lia.
  - split.
    + intros E. destruct (dbOnce s); [now apply I1|].
      rewrite (I0 eq_refl) in E. discriminate.
    + intros (c & Ic & Sc). pose proof (IC c Ic) as K.
      unfold callerOK in K.
      destruct (c_seen c) as [[db err]|]; [|contradiction].
      destruct K as (D & _). now apply I1.
  - intros c [db err] Ic Sc. pose proof (IC c Ic) as K.
    unfold callerOK in K. rewrite Sc in K.
    destruct K as (_ & -> & -> & _). reflexivity.
  - intros c Ic F. pose proof (IC c Ic) as K.
    unfold callerOK in K. unfold isFinished in F.
    destruct (c_seen c) as [[db err]|].
    + destruct K as (_ & -> & -> & Rf & [P|P]);
        [rewrite P in F; discriminate|].
      split; [split; [auto|discriminate]|auto].
    + destruct (c_pc c); try discriminate.
      rewrite K.
      split; [split; [contradiction|discriminate]|discriminate].
Qed.
End ConcurrentInit.

Lemma setNth_map {A B : Type} (f : A -> B) (i : nat) (x c : A)
      (l : list A) :
  nth_error l i = Some c -> f x = f c ->
  map f (setNth i x l) = map f l.
Proof.
  revert i. induction l as [|a l IH]; intros [|i] H E; simpl in *;
    try discriminate.
  - injection H as ->. now rewrite E.
  - now rewrite (IH i H E).
Qed.

Section ExactlyOnce.
Context {L : GoLib}.

(** A step changes neither the world nor the argument of a caller. *)
Lemma advance_same_call (c c' : caller) (s s' : State) :
  advance c s = Some (c', s') ->
  (c_world c', c_ip c') = (c_world c, c_ip c).
Proof.
  unfold advance.
  destruct (c_pc c) as [| |db err|o]; [| | |discriminate].
  - destruct (lookupFromIPInfo (c_world c) (c_ip c) s) as [[code e] s1].
    destruct (isNil e && negb (isEmpty code)); now intros [= <- _].
  - destruct (getDB (c_world c) s) as [[db err] s1]. now intros [= <- _].
  - now intros [= <- _].
Qed.

(** The callers of a reachable configuration are the calls that were
    started, in order. *)
Lemma runSchedule_same_calls (sched : list nat)
      (cfg cfg' : list caller * State) :
  runSchedule sched cfg = Some cfg' ->
  map (fun c => (c_world c, c_ip c)) (fst cfg')
  = map (fun c => (c_world c, c_ip c)) (fst cfg).
Proof.
  revert cfg. induction sched as [|i rest IH]; intros cfg; simpl.
  - now intros [= <-].
  - unfold stepAt.
    destruct (nth_error (fst cfg) i) as [c|] eqn:N; [|discriminate].
    destruct (advance c (snd cfg)) as [[c' s']|] eqn:A; [|discriminate].
    intros R. rewrite (IH _ R). simpl.
    apply (setNth_map _ i c' c _ N), (advance_same_call c c' _ _ A).
Qed.

(** C9.  Take any number of first calls of [Lookup] (two or more in
    particular) that run concurrently, their steps interleaved in any
    order, a call of
    [getDB] being one step (what [sync.Once] guarantees: calls of [Do]
    exclude each other and none returns before the one run of [initDB]
    has).  At every moment [initDB] has been attempted at most once
    and every caller that has come back from [getDB] holds the
    recorded reader and error.  When all calls have finished and the
    remote tier failed for at least one of them, [initDB] has been
    attempted exactly once, and every call whose remote tier failed
    was handed the same reader and the same error and read its result
    through them. *)
Theorem concurrent_init_exactly_once
    (cs0 : list (World * IP)) (sched : list nat)
    (cs : list caller) (s : State) :
  runSchedule sched (map (fun x => fresh (fst x) (snd x)) cs0, initial)
  = Some (cs, s) ->
  initAttempts (trace s) <= 1
  /\ (forall c h, In c cs -> c_seen c = Some h ->
                  h = (dbReader s, dbInitErr s))
  /\ (forallb isFinished cs = true ->
      (exists call, In call cs0
                    /\ remoteOK (fst call) (snd call) initial = false) ->
      initAttempts (trace s) = 1
      /\ forall c, In c cs ->
           remoteOK (c_world c) (c_ip c) initial = false ->
           c_seen c = Some (dbReader s, dbInitErr s)
           /\ c_pc c = Finished (lookupRecord (dbReader s) (dbInitErr s)
                                              (c_ip c))).
Proof.
  intros R.
  destruct (concurrent_init_at_most_once cs0 sched cs s R)
    as (A & B & C & D).
  split; [exact A|]. split; [exact C|].
  intros F (call & Ic & Rc).
  assert (K : forall c, In c cs ->
            remoteOK (c_world c) (c_ip c) initial = false ->
            c_seen c = Some (dbReader s, dbInitErr s)
            /\ c_pc c = Finished (lookupRecord (dbReader s) (dbInitErr s)
                                               (c_ip c))).
  { intros c I Rf.
    assert (Fc : isFinished c = true)
      by (rewrite forallb_forall in F; now apply F).
    destruct (D c I Fc) as (S1 & S2).
    split; [|now apply S2].
    destruct (c_seen c) as [h|] eqn:E.
    - now rewrite (C c h I E).
    - exfalso. now apply (proj2 S1 Rf). }
  split; [|exact K].
  apply B.
  assert (M : In call (map (fun c => (c_world c, c_ip c)) cs)).
  { pose proof (runSchedule_same_calls sched _ _ R) as Q.
    simpl in Q. rewrite Q, map_map. simpl. apply in_map_iff.
    exists call. split; [now destruct call|exact Ic]. }
  apply in_map_iff in M. destruct M as (c & E & I).
  exists c. split; [exact I|].
  assert (Rf : remoteOK (c_world c) (c_ip c) initial = false).
  { rewrite <- E in Rc. exact Rc. }
  destruct (K c I Rf) as (S & _). rewrite S. discriminate.
Qed.
End ExactlyOnce.

(** Two callers in a world without network: their steps alternate, one
    initialisation is logged and both read the same database. *)
Lemma concurrent_init_exactly_once_witness :
  initAttempts
    [EvFromBytes; EvStat externalDBPath;
     EvHttpGet "https://ipinfo.io/8.8.8.8/country";
     EvHttpGet "https://ipinfo.io/8.8.8.8/country"] = 1.
Proof.
  refine (proj1 (proj2 (proj2 (@concurrent_init_exactly_once plainLib
            [(worldEmbedded recUS, ip1); (worldEmbedded recJP, ip1)]
            [0; 1; 0; 1; 0; 1]
            [mkCaller (worldEmbedded recUS) ip1
                      (Finished (Return "us" None))
                      (Some (Some (readerWith recUS), None));
             mkCaller (worldEmbedded recJP) ip1
                      (Finished (Return "us" None))
                      (Some (Some (readerWith recUS), None))]
            (mkState true (Some (readerWith recUS)) None
               [EvFromBytes; EvStat externalDBPath;
                EvHttpGet "https://ipinfo.io/8.8.8.8/country";
                EvHttpGet "https://ipinfo.io/8.8.8.8/country"]) _))
            _ _)).
  - reflexivity.
  - reflexivity.
  - exists (worldEmbedded recUS, ip1).
    split; [left; reflexivity|reflexivity].
Defined.

(** ** [Lookup] returns *)

Section Totality.
Context {L : GoLib}.

Lemma initDB_records (w : World) (s : State) :
  dbReader (initDB w s) <> None \/ dbInitErr (initDB w s) <> None.
Proof.
  unfold initDB.
  destruct (os_Stat w externalDBPath) as [e|[|]];
    [ | | destruct (maxminddb_Open w externalDBPath) as [e|r]];
    try destruct (maxminddb_FromBytes_embeddedDB w) as [e'|r'];
    simpl; ((left; discriminate) || (right; discriminate)).
Qed.

(** From a state in which a finished initialisation has recorded a
    reader or an error (the initial state is one), [Lookup] does not
    panic, and it leaves such a state. *)
Lemma Lookup_returns (w : World) (ip : IP) (s : State) :
  initialised s ->
  (exists code err, fst (Lookup w ip s) = Return code err)
  /\ initialised (snd (Lookup w ip s)).
Proof.
  intros I.
  pose proof (lookupFromIPInfo_sameVars w ip s) as (a & b & c).
  unfold Lookup.
  destruct (lookupFromIPInfo w ip s) as [[code err] s1]. simpl in a, b, c.
  assert (I1 : initialised s1).
  { unfold initialised in *. rewrite <- a, <- b, <- c. exact I. }
  destruct (isNil err && negb (isEmpty code)); simpl; [eauto|].
  unfold lookupLocal, getDB, Once_Do.
  destruct (dbOnce s1) eqn:D; simpl.
  - split; [|exact I1].
    unfold lookupRecord. destruct (I1 D) as [N|N].
    + destruct (dbInitErr s1); [eauto|].
      destruct (dbReader s1) as [db|]; [|contradiction].
      destruct (Reader_Lookup db ip zeroIPInfo) as [record [e|]];
        [eauto|]. destruct (codeOf record). eauto.
    + destruct (dbInitErr s1); [eauto|contradiction].
  - pose proof (initDB_records w s1) as N.
    split; [|intros _; exact N].
    unfold lookupRecord. destruct N as [N|N].
    + destruct (dbInitErr (initDB w s1)); [eauto|].
      destruct (dbReader (initDB w s1)) as [db|]; [|contradiction].
      destruct (Reader_Lookup db ip zeroIPInfo) as [record [e|]];
        [eauto|]. destruct (codeOf record). eauto.
    + destruct (dbInitErr (initDB w s1)); [eauto|contradiction].
Qed.
End Totality.

(** * Further properties *)

(** ** White space around the remote answer *)

Lemma asciiSpace_isASCII (c : ascii) :
  asciiSpace c = true -> isASCIIbyte c = true.
Proof.
  unfold asciiSpace, isASCIIbyte. intros H.
  repeat (apply orb_true_iff in H; destruct H as [H|H]);
    apply Nat.eqb_eq in H; rewrite H; reflexivity.
Qed.

Section Trim.
Context {L : GoLib}.

Lemma trimRight_spaces (post acc : string) :
  allSpaces post = true ->
  trimRight (rev_string acc post) = trimRight acc.
Proof.
  revert acc. induction post as [|c post IH]; intros acc H; simpl in *.
  - reflexivity.
  - apply andb_true_iff in H. destruct H as [Hc Hp].
    rewrite (IH _ Hp). simpl.
    now rewrite (asciiSpace_isASCII c Hc), Hc.
Qed.

Lemma TrimSpace_leading (pre s : string) :
  allSpaces pre = true -> TrimSpace (pre ++ s) = TrimSpace s.
Proof.
  induction pre as [|c pre IH]; intros H; simpl in *; [reflexivity|].
  apply andb_true_iff in H. destruct H as [Hc Hp].
  now rewrite (asciiSpace_isASCII c Hc), Hc, (IH Hp).
Qed.

Lemma TrimSpace_blank (body : string) :
  allSpaces body = true -> TrimSpace body = EmptyString.
Proof.
  induction body as [|c body IH]; intros H; simpl in *; [reflexivity|].
  apply andb_true_iff in H. destruct H as [Hc Hp].
  now rewrite (asciiSpace_isASCII c Hc), Hc, (IH Hp).
Qed.

Lemma TrimSpace_two (a b : ascii) (post : string) :
  plainByte a = true -> plainByte b = true -> allSpaces post = true ->
  TrimSpace (String a (String b post)) = String a (String b EmptyString).
Proof.
  unfold plainByte. intros Ha Hb Hp.
  apply andb_true_iff in Ha. destruct Ha as [Aa Sa].
  apply andb_true_iff in Hb. destruct Hb as [Ab Sb].
  apply negb_true_iff in Sa. apply negb_true_iff in Sb.
  simpl. rewrite Aa, Sa. simpl.
  rewrite (trimRight_spaces post _ Hp). simpl.
  now rewrite Ab, Sb.
Qed.

(** X1.  A reply with status 200 whose body is two ASCII bytes other
    than white space, with any ASCII white space before and after
    (a trailing line feed, say), is a success, and the result is the
    two bytes in lower case. *)
Theorem fetchIPInfoCountry_tolerates_space
    (w : World) (url : string) (s : State)
    (pre post : string) (a b : ascii) :
  http_Get w url
  = Response http_StatusOK (ReadAll (pre ++ String a (String b post))) ->
  allSpaces pre = true -> allSpaces post = true ->
  plainByte a = true -> plainByte b = true ->
  fst (fetchIPInfoCountry w url s)
  = (String (lowerByte a) (String (lowerByte b) EmptyString), None).
Proof.
  intros G Hpre Hpost Ha Hb.
  unfold fetchIPInfoCountry. rewrite G. simpl.
  rewrite (TrimSpace_leading pre _ Hpre), (TrimSpace_two a b post Ha Hb Hpost).
  simpl. unfold ToLower. simpl.
  unfold plainByte in Ha, Hb.
  apply andb_true_iff in Ha. destruct Ha as [Aa _].
  apply andb_true_iff in Hb. destruct Hb as [Ab _].
  now rewrite Aa, Ab.
Qed.

(** X2.  A reply with status 200 whose body is empty or is ASCII white
    space only is a failure, with the error for a code of the wrong
    length. *)
Theorem fetchIPInfoCountry_blank_body
    (w : World) (url : string) (s : State) (body : string) :
  http_Get w url = Response http_StatusOK (ReadAll body) ->
  allSpaces body = true ->
  fst (fetchIPInfoCountry w url s)
  = (EmptyString, Some (errors_New "invalid country code from ipinfo")).
Proof.
  intros G H. unfold fetchIPInfoCountry. rewrite G. simpl.
  now rewrite (TrimSpace_blank body H).
Qed.
End Trim.

Lemma fetchIPInfoCountry_tolerates_space_witness :
  fst (@fetchIPInfoCountry plainLib
         (mkWorld (netSays (String " " (String "H" (String "k"
                     (String "013" (String "010" EmptyString))))))
                  noFile badOpen (OpenFailed "none"))
         "https://ipinfo.io/8.8.8.8/country" initial)
  = ("hk", None).
Proof.
  apply (@fetchIPInfoCountry_tolerates_space plainLib _ _ _
           (String " " EmptyString)
           (String "013" (String "010" EmptyString)) "H" "k");
    reflexivity.
Defined.

Lemma fetchIPInfoCountry_blank_body_witness :
  fst (@fetchIPInfoCountry plainLib
         (mkWorld (netSays (String "010" EmptyString))
                  noFile badOpen (OpenFailed "none"))
         "https://ipinfo.io/8.8.8.8/country" initial)
  = (EmptyString, Some (errors_New "invalid country code from ipinfo")).
Proof.
  apply (@fetchIPInfoCountry_blank_body plainLib _ _ _
           (String "010" EmptyString)); reflexivity.
Defined.

(** ** Requests and file accesses of one call *)

Section Effects.
Context {L : GoLib}.

(** What [getDB] adds to the trace are file-system events. *)
Lemma getDB_events (w : World) (s : State) :
  exists fs, trace (snd (getDB w s)) = (fs ++ trace s)%list
             /\ forallb isFsEvent fs = true.
Proof.
  unfold getDB, Once_Do.
  destruct (dbOnce s); simpl; [now exists []|].
  unfold initDB.
  destruct (os_Stat w externalDBPath) as [e|[|]];
    [ | | destruct (maxminddb_Open w externalDBPath) as [e|r]];
    try destruct (maxminddb_FromBytes_embeddedDB w) as [e'|r']; simpl;
    first [ now exists [EvFromBytes; EvStat externalDBPath]
          | now exists [EvFromBytes; EvOpen externalDBPath;
                        EvStat externalDBPath]
          | now exists [EvOpen externalDBPath; EvStat externalDBPath] ].
Qed.

(** X3.  For a non-nil address a call of [Lookup] makes exactly one
    request, to the address's [country] page at ipinfo.io, and makes it
    before any file access of the call: the events the call logs are
    that request followed by file-system events only.  There is no
    retry. *)
Theorem Lookup_one_request (w : World) (b : list Byte.byte) (s : State) :
  exists fs,
    trace (snd (Lookup w (Some b) s))
    = (fs ++ EvHttpGet
               ("https://ipinfo.io/" ++ IP_String b ++ "/country")%string
          :: trace s)%list
    /\ forallb isFsEvent fs = true.
Proof.
  destruct (remoteOK w (Some b) s) eqn:R.
  - rewrite (Lookup_remote w (Some b) s R). simpl.
    rewrite fetchIPInfoCountry_state. now exists [].
  - rewrite (Lookup_local w (Some b) s R), lookupLocal_state.
    destruct (getDB_events w (snd (lookupFromIPInfo w (Some b) s)))
      as (fs & E & F).
    exists fs. rewrite E. simpl. rewrite fetchIPInfoCountry_state.
    now split.
Qed.

(** X4.  Calling [getDB] again changes nothing and hands out the same
    reader and error, in whatever world the second call runs. *)
Theorem getDB_idempotent (w w' : World) (s : State) :
  getDB w' (snd (getDB w s)) = (fst (getDB w s), snd (getDB w s)).
Proof.
  assert (D : dbOnce (snd (getDB w s)) = true).
  { unfold getDB, Once_Do. destruct (dbOnce s) eqn:E; [exact E|reflexivity]. }
  rewrite (getDB_done w' _ D).
  unfold getDB, Once_Do. now destruct (dbOnce s).
Qed.
End Effects.

(** ** Which database serves the local tier *)

Section Choice.
Context {L : GoLib}.

(** X5.  When the external path is a regular file that opens as a
    database, the first [Lookup] that reaches the local tier records
    the external reader and no error, does not parse the embedded
    bytes (it logs the [os.Stat] and the [maxminddb.Open] only), and
    answers from the external database. *)
Theorem external_preferred
    (w : World) (ip : IP) (s : State) (r : Reader) :
  sameVars initial s ->
  os_Stat w externalDBPath = StatInfo false ->
  maxminddb_Open w externalDBPath = Opened r ->
  remoteOK w ip s = false ->
  dbReader (snd (Lookup w ip s)) = Some r
  /\ dbInitErr (snd (Lookup w ip s)) = None
  /\ trace (snd (Lookup w ip s))
     = EvOpen externalDBPath :: EvStat externalDBPath
         :: trace (snd (lookupFromIPInfo w ip s))
  /\ fst (Lookup w ip s) = lookupRecord (Some r) None ip.
Proof.
  intros V S O R.
  rewrite (Lookup_local w ip s R).
  pose proof (sameVars_trans _ _ _ V (lookupFromIPInfo_sameVars w ip s))
    as (a & b & c).
  simpl in a, b, c.
  unfold lookupLocal, getDB, Once_Do, initDB.
  rewrite <- a, S, O. simpl. rewrite <- c. repeat split.
Qed.

(** X6.  As long as the embedded database parses, a failure of
    [os.Stat] or of [maxminddb.Open] on the external file is never
    reported: the first [Lookup] that reaches the local tier records a
    reader and no error and answers from that reader, and the reader
    is the one [maxminddb.Open] gave when the external path is a
    regular file that opens, and the embedded one in every other
    case. *)
Theorem external_failure_not_reported
    (w : World) (ip : IP) (s : State) (re : Reader) :
  sameVars initial s ->
  maxminddb_FromBytes_embeddedDB w = Opened re ->
  remoteOK w ip s = false ->
  exists r,
    dbReader (snd (Lookup w ip s)) = Some r
    /\ dbInitErr (snd (Lookup w ip s)) = None
    /\ fst (Lookup w ip s) = lookupRecord (Some r) None ip
    /\ (externalUsable w -> maxminddb_Open w externalDBPath = Opened r)
    /\ (~ externalUsable w -> r = re).
Proof.
  intros V F R.
  rewrite (Lookup_local w ip s R).
  pose proof (sameVars_trans _ _ _ V (lookupFromIPInfo_sameVars w ip s))
    as (a & b & c).
  simpl in a, b, c.
  unfold lookupLocal, getDB, Once_Do, initDB, externalUsable.
  rewrite <- a, F.
  destruct (os_Stat w externalDBPath) as [e|[|]] eqn:S;
    [ | | destruct (maxminddb_Open w externalDBPath) as [e|r] eqn:O];
    simpl; rewrite <- c.
  - exists re. repeat split; auto. intros (X & _). discriminate X.
  - exists re. repeat split; auto. intros (X & _). discriminate X.
  - exists re. repeat split; auto. intros (_ & r & X). discriminate X.
  - exists r. repeat split; auto.
    intros N. exfalso. apply N. split; [reflexivity|now exists r].
Qed.

(** X7.  The choice is final.  After a first [Lookup] that reached the
    local tier, any further calls, in any worlds (the external file
    may have appeared, changed or vanished), leave the recorded reader
    and error as they are, log no file-system event, and are answered,
    when their remote tier fails, from the recorded reader or error. *)
Theorem database_choice_is_final
    (w0 : World) (ip0 : IP) (s0 : State) (calls : list (World * IP)) :
  remoteOK w0 ip0 s0 = false ->
  sameVars (snd (Lookup w0 ip0 s0))
           (snd (runLookups calls (snd (Lookup w0 ip0 s0))))
  /\ List.filter isFsEvent
       (trace (snd (runLookups calls (snd (Lookup w0 ip0 s0)))))
     = List.filter isFsEvent (trace (snd (Lookup w0 ip0 s0)))
  /\ Forall2 (fun call out =>
                remoteOK (fst call) (snd call) initial = false ->
                out = lookupRecord (dbReader (snd (Lookup w0 ip0 s0)))
                                   (dbInitErr (snd (Lookup w0 ip0 s0)))
                                   (snd call))
             calls (fst (runLookups calls (snd (Lookup w0 ip0 s0)))).
Proof.
  intros R. apply runLookups_done.
  rewrite (Lookup_local w0 ip0 s0 R), lookupLocal_state.
  unfold getDB, Once_Do.
  destruct (dbOnce (snd (lookupFromIPInfo w0 ip0 s0))) eqn:D;
    [exact D|reflexivity].
Qed.

(** X8.  The initialisation is lazy: calls that the remote tier answers
    return the remote code and leave the package variables untouched,
    with no file-system event, however many they are. *)
Theorem remote_answers_never_initialise
    (calls : list (World * IP)) (s : State) :
  Forall (fun call => remoteOK (fst call) (snd call) initial = true)
         calls ->
  sameVars s (snd (runLookups calls s))
  /\ List.filter isFsEvent (trace (snd (runLookups calls s)))
     = List.filter isFsEvent (trace s)
  /\ Forall2 (fun call out =>
                out = Return (fst (fst (lookupFromIPInfo (fst call)
                                          (snd call) initial))) None)
             calls (fst (runLookups calls s)).
Proof.
  intros H. revert s.
  induction H as [|[w ip] rest R _ IH]; intros s; simpl.
  - repeat split. constructor.
  - simpl in R. rewrite (remoteOK_state w ip initial s) in R.
    rewrite (Lookup_remote w ip s R).
    destruct (IH (snd (lookupFromIPInfo w ip s))) as (V & T & F).
    destruct (runLookups rest (snd (lookupFromIPInfo w ip s)))
      as [os s2]. simpl in *.
    split; [exact (sameVars_trans _ _ _
                     (lookupFromIPInfo_sameVars w ip s) V)|].
    split; [now rewrite T, lookupFromIPInfo_trace|].
    constructor; [|exact F].
    simpl. now rewrite (lookupFromIPInfo_result w ip s initial).
Qed.
End Choice.

Lemma external_preferred_witness :
  fst (@Lookup plainLib (worldExternal recJP) ip1 initial)
  = Return "jp" None.
Proof.
  refine (proj2 (proj2 (proj2
            (@external_preferred plainLib (worldExternal recJP) ip1 initial
               (readerWith recJP) _ _ _ _)))).
  - repeat split.
  - reflexivity.
  - reflexivity.
  - reflexivity.
Defined.

Lemma external_failure_not_reported_witness :
  exists r,
    dbReader (snd (@Lookup plainLib (worldCorrupt recJP) ip1 initial))
    = Some r
    /\ dbInitErr (snd (@Lookup plainLib (worldCorrupt recJP) ip1 initial))
       = None
    /\ fst (@Lookup plainLib (worldCorrupt recJP) ip1 initial)
       = @lookupRecord plainLib (Some r) None ip1
    /\ (externalUsable (worldCorrupt recJP) ->
        maxminddb_Open (worldCorrupt recJP) externalDBPath = Opened r)
    /\ (~ externalUsable (worldCorrupt recJP) -> r = readerWith recJP).
Proof.
  apply (@external_failure_not_reported plainLib (worldCorrupt recJP) ip1
           initial (readerWith recJP)).
  - repeat split.
  - reflexivity.
  - reflexivity.
Defined.

(** The embedded database is chosen first; the later call runs in a
    world where the external file has appeared. *)
Lemma database_choice_is_final_witness :
  sameVars
    (snd (@Lookup plainLib (worldEmbedded recUS) ip1 initial))
    (snd (@runLookups plainLib [(worldExternal recJP, ip1)]
            (snd (@Lookup plainLib (worldEmbedded recUS) ip1 initial)))).
Proof.
  refine (proj1 (@database_choice_is_final plainLib (worldEmbedded recUS)
                   ip1 initial [(worldExternal recJP, ip1)] _)).
  reflexivity.
Defined.

Lemma remote_answers_never_initialise_witness :
  sameVars initial
    (snd (@runLookups plainLib [(worldRemote, ip1); (worldRemote, ip2)]
            initial)).
Proof.
  refine (proj1 (@remote_answers_never_initialise plainLib
                   [(worldRemote, ip1); (worldRemote, ip2)] initial _)).
  repeat constructor.
Defined.

(** ** The errors and results of [Lookup] *)

Section Results.
Context {L : GoLib}.

(** X9.  Of the errors this package builds itself, [Lookup] returns
    only [IP not found]: the errors of the remote tier ([nil ip],
    [ipinfo status not OK], [invalid country code from ipinfo]) are
    dropped, for every address. *)
Theorem Lookup_own_error
    (w : World) (ip : IP) (s : State) (code msg : string) :
  initErrFromLib s ->
  fst (Lookup w ip s) = Return code (Some (errors_New msg)) ->
  msg = "IP not found".
Proof.
  intros H E.
  destruct (remoteOK w ip s) eqn:R.
  - rewrite (Lookup_remote w ip s R) in E. discriminate E.
  - rewrite (Lookup_local w ip s R) in E.
    unfold lookupLocal in E.
    assert (H1 : initErrFromLib (snd (lookupFromIPInfo w ip s))).
    { destruct (lookupFromIPInfo_sameVars w ip s) as (_ & _ & c).
      unfold initErrFromLib in *. now rewrite <- c. }
    pose proof (getDB_errFromLib w _ msg H1) as G.
    destruct (getDB w (snd (lookupFromIPInfo w ip s))) as [[db err] s2].
    simpl in E, G.
    destruct (lookupRecord_error db err ip code msg E) as [X|X];
      [contradiction|exact X].
Qed.

Lemma lookupRecord_failure (db : option Reader) (err : option error)
      (ip : IP) (code : string) (e : error) :
  lookupRecord db err ip = Return code (Some e) -> code = EmptyString.
Proof.
  unfold lookupRecord.
  destruct err as [e0|]; [now intros [= <- _]|].
  destruct db as [db|]; [|discriminate].
  destruct (Reader_Lookup db ip zeroIPInfo) as [record [e1|]];
    [now intros [= <- _]|].
  unfold codeOf.
  repeat match goal with
         | |- context [if ?b then _ else _] => destruct b
         end; try discriminate.
  now intros [= <- _].
Qed.

(** X10.  Whenever [Lookup] returns an error, the code it returns with
    it is the empty string. *)
Theorem Lookup_failure_has_no_code
    (w : World) (ip : IP) (s : State) (code : string) (e : error) :
  fst (Lookup w ip s) = Return code (Some e) -> code = EmptyString.
Proof.
  intros E.
  destruct (remoteOK w ip s) eqn:R.
  - rewrite (Lookup_remote w ip s R) in E. discriminate E.
  - rewrite (Lookup_local w ip s R) in E.
    unfold lookupLocal in E.
    destruct (getDB w (snd (lookupFromIPInfo w ip s))) as [[db err] s2].
    simpl in E. exact (lookupRecord_failure db err ip code e E).
Qed.

(** One call keeps the package variables well formed. *)
Lemma Lookup_exclusive (w : World) (ip : IP) (s : State) :
  exclusive s ->
  exclusive (snd (Lookup w ip s)) /\ fst (Lookup w ip s) <> Panic.
Proof.
  intros X.
  assert (X1 : exclusive (snd (lookupFromIPInfo w ip s))).
  { destruct (lookupFromIPInfo_sameVars w ip s) as (a & b & c).
    unfold exclusive in *. now rewrite <- a, <- b, <- c. }
  destruct (remoteOK w ip s) eqn:R.
  - rewrite (Lookup_remote w ip s R). simpl. split; [exact X1|discriminate].
  - rewrite (Lookup_local w ip s R).
    set (s1 := snd (lookupFromIPInfo w ip s)) in *.
    assert (G : exclusive (snd (getDB w s1))).
    { unfold getDB, Once_Do.
      destruct (dbOnce s1) eqn:D; simpl; [exact X1|].
      destruct X1 as [(_ & b & c)|(D' & _)]; [|congruence].
      right. split; [reflexivity|].
      unfold initDB.
      destruct (os_Stat w externalDBPath) as [e|[|]];
        [ | | destruct (maxminddb_Open w externalDBPath) as [e|r]];
        try destruct (maxminddb_FromBytes_embeddedDB w) as [e'|r'];
        simpl; rewrite ?b, ?c; eauto. }
    rewrite lookupLocal_state. split; [exact G|].
    unfold lookupLocal, getDB in *. simpl in *.
    set (s2 := Once_Do (initDB w) s1) in *.
    assert (D2 : dbOnce s2 = true).
    { unfold s2, Once_Do. destruct (dbOnce s1) eqn:D; [exact D|reflexivity]. }
    destruct G as [(D' & _)|(_ & [(r & -> & ->)|(-> & e & ->)])];
      [congruence| |discriminate].
    unfold lookupRecord.
    destruct (Reader_Lookup r ip zeroIPInfo) as [record [e|]];
      [discriminate|]. destruct (codeOf record). discriminate.
Qed.

(** X11.  In any sequence of calls that starts from the initial package
    state, no call panics (the reader is never nil when the error is),
    and the variables end well formed: untouched, or a reader without
    an error, or a library error without a reader. *)
Theorem Lookup_never_panics (calls : list (World * IP)) :
  Forall (fun out => out <> Panic) (fst (runLookups calls initial))
  /\ exclusive (snd (runLookups calls initial)).
Proof.
  assert (G : forall s, exclusive s ->
            Forall (fun out => out <> Panic) (fst (runLookups calls s))
            /\ exclusive (snd (runLookups calls s))).
  { induction calls as [|[w ip] rest IH]; intros s X; simpl.
    - split; [constructor|exact X].
    - destruct (Lookup_exclusive w ip s X) as (X1 & P).
      destruct (Lookup w ip s) as [o s1]. simpl in X1, P.
      destruct (IH s1 X1) as (F & X2).
      destruct (runLookups rest s1) as [os s2]. simpl in *.
      split; [constructor; assumption|exact X2]. }
  apply G. left. repeat split.
Qed.
End Results.

Lemma Lookup_own_error_witness :
  "IP not found" = "IP not found".
Proof.
  refine (@Lookup_own_error plainLib (worldEmbedded recUS) ip2 initial
            EmptyString "IP not found" _ _).
  - intros msg. discriminate.
  - reflexivity.
Defined.

Lemma Lookup_failure_has_no_code_witness :
  EmptyString = EmptyString.
Proof.
  refine (@Lookup_failure_has_no_code plainLib worldBroken ip1 initial
            EmptyString (lib_error "error opening database") _).
  reflexivity.
Defined.

(** ** How often the database is initialised *)

Section InitCount.
Context {L : GoLib}.

(** X12.  In any sequence of calls that starts from the initial package
    state, [initDB] runs once if the remote tier fails for at least
    one call, and not at all otherwise. *)
Theorem sequential_init_count (calls : list (World * IP)) :
  initAttempts (trace (snd (runLookups calls initial)))
  = if existsb (fun call =>
                  negb (remoteOK (fst call) (snd call) initial)) calls
    then 1 else 0.
Proof.
  assert (G : forall s,
      initAttempts (trace (snd (runLookups calls s)))
      = initAttempts (trace s)
        + (if dbOnce s then 0
           else if existsb (fun call =>
                              negb (remoteOK (fst call) (snd call) initial))
                           calls
                then 1 else 0)).
  { induction calls as [|[w ip] rest IH]; intros s; simpl.
    - destruct (dbOnce s); lia.
    - pose proof (lookupFromIPInfo_sameVars w ip s) as (a & _).
      pose proof (lookupFromIPInfo_attempts w ip s) as A.
      rewrite <- (remoteOK_state w ip s initial).
      destruct (remoteOK w ip s) eqn:R; simpl.
      + rewrite (Lookup_remote w ip s R).
        specialize (IH (snd (lookupFromIPInfo w ip s))).
        destruct (runLookups rest (snd (lookupFromIPInfo w ip s)))
          as [os s2]. simpl in *.
        now rewrite IH, A, <- a.
      + rewrite (Lookup_local w ip s R).
        set (sr := snd (lookupFromIPInfo w ip s)) in *.
        pose proof (lookupLocal_state w ip sr) as E.
        destruct (lookupLocal w ip sr) as [o s1]. cbn [snd] in E. subst s1.
        specialize (IH (snd (getDB w sr))).
        destruct (runLookups rest (snd (getDB w sr))) as [os s2].
        cbn [snd] in *. rewrite IH.
        unfold getDB, Once_Do. cbn [snd]. rewrite <- a.
        destruct (dbOnce s); cbn [dbOnce trace].
        * rewrite <- a. lia.
        * rewrite initDB_attempts, A. lia. }
  now rewrite G.
Qed.
End InitCount.

(** ** No panic under concurrency *)

Section ConcurrentSafety.
Context {L : GoLib}.

Lemma exclusive_sameVars (s s' : State) :
  sameVars s s' -> exclusive s -> exclusive s'.
Proof.
  intros (a & b & c). unfold exclusive. now rewrite a, b, c.
Qed.

Lemma getDB_exclusive (w : World) (s : State) :
  exclusive s -> exclusive (snd (getDB w s)).
Proof.
  intros X. unfold getDB, Once_Do.
  destruct (dbOnce s) eqn:D; simpl; [exact X|].
  destruct X as [(_ & b & c)|(D' & _)]; [|congruence].
  right. split; [reflexivity|].
  unfold initDB.
  destruct (os_Stat w externalDBPath) as [e|[|]];
    [ | | destruct (maxminddb_Open w externalDBPath) as [e|r]];
    try destruct (maxminddb_FromBytes_embeddedDB w) as [e'|r'];
    simpl; rewrite ?b, ?c; eauto.
Qed.

Lemma lookupRecord_no_panic (s : State) (ip : IP) :
  exclusive s -> dbOnce s = true ->
  lookupRecord (dbReader s) (dbInitErr s) ip <> Panic.
Proof.
  intros [(D' & _)|(_ & [(r & -> & ->)|(-> & e & ->)])] D;
    [congruence| |discriminate].
  unfold lookupRecord.
  destruct (Reader_Lookup r ip zeroIPInfo) as [record [e|]];
    [discriminate|]. destruct (codeOf record). discriminate.
Qed.

Lemma safe_step (i : nat) (cfg cfg' : list caller * State) :
  invariant cfg -> safe cfg -> stepAt i cfg = Some cfg' -> safe cfg'.
Proof.
  destruct cfg as [cs s]. unfold invariant, safe, stepAt. simpl.
  intros (_ & _ & IC) (X & P).
  destruct (nth_error cs i) as [c|] eqn:N; [|discriminate].
  destruct (advance c s) as [[c' s']|] eqn:A; [|discriminate].
  intros [= <-]. simpl.
  assert (Ic : In c cs) by (eapply nth_error_In; eassumption).
  pose proof (IC c Ic) as K.
  assert (G : exclusive s' /\ forall o, c_pc c' = Finished o -> o <> Panic).
  { unfold advance in A. unfold callerOK in K.
    destruct c as [w ip p seen]; simpl in *.
    destruct p as [| |db err|o0]; [| | |discriminate].
    - pose proof (lookupFromIPInfo_sameVars w ip s) as V.
      destruct (lookupFromIPInfo w ip s) as [[code e] s1]. simpl in V.
      destruct (isNil e && negb (isEmpty code));
        injection A as <- <-; simpl;
        (split; [exact (exclusive_sameVars _ _ V X)|]);
        intros o [= <-]; discriminate.
    - pose proof (getDB_exclusive w s X) as Y.
      injection A as <- <-. simpl. split; [exact Y|discriminate].
    - destruct seen as [[db0 err0]|]; [|contradiction].
      destruct K as (D & -> & -> & _ & [Q|Q]); [|discriminate Q].
      injection Q as -> ->.
      injection A as <- <-. simpl. split; [exact X|].
      intros o [= <-]. now apply lookupRecord_no_panic. }
  destruct G as (X' & P').
  split; [exact X'|].
  intros x o Ix Fx.
  destruct (setNth_In i c' x c cs N Ix) as [->|Ix'];
    [now apply P'|now apply (P x)].
Qed.

(** X13.  However the steps of concurrent first calls interleave, no
    caller panics: a finished caller has returned, never having read
    through a nil reader; and the package variables are well formed. *)
Theorem concurrent_calls_never_panic
    (cs0 : list (World * IP)) (sched : list nat)
    (cs : list caller) (s : State) :
  runSchedule sched (map (fun x => fresh (fst x) (snd x)) cs0, initial)
  = Some (cs, s) ->
  exclusive s
  /\ forall c o, In c cs -> c_pc c = Finished o -> o <> Panic.
Proof.
  assert (G : forall cfg cfg',
            invariant cfg -> safe cfg ->
            runSchedule sched cfg = Some cfg' -> safe cfg').
  { induction sched as [|i rest IH]; intros cfg cfg' I S; simpl.
    - now intros [= <-].
    - destruct (stepAt i cfg) as [cfg1|] eqn:E; [|discriminate].
      apply IH; [exact (invariant_step i cfg cfg1 I E)
                |exact (safe_step i cfg cfg1 I S E)]. }
  intros R.
  apply (G _ (cs, s) (invariant_start cs0)); [|exact R].
  split; simpl; [left; repeat split|].
  intros c o I. apply in_map_iff in I. destruct I as (x & <- & _).
  discriminate.
Qed.
End ConcurrentSafety.

Lemma concurrent_calls_never_panic_witness :
  exclusive (mkState true (Some (readerWith recUS)) None
               [EvFromBytes; EvStat externalDBPath;
                EvHttpGet "https://ipinfo.io/8.8.8.8/country";
                EvHttpGet "https://ipinfo.io/8.8.8.8/country"]).
Proof.
  refine (proj1 (@concurrent_calls_never_panic plainLib
            [(worldEmbedded recUS, ip1); (worldEmbedded recJP, ip1)]
            [0; 1; 0; 1; 0; 1]
            [mkCaller (worldEmbedded recUS) ip1
                      (Finished (Return "us" None))
                      (Some (Some (readerWith recUS), None));
             mkCaller (worldEmbedded recJP) ip1
                      (Finished (Return "us" None))
                      (Some (Some (readerWith recUS), None))]
            _ _)).
  reflexivity.
Defined.
